(** * timing_utils: a shallow embedding of [utils/__init__.py]

    The helper routines of the repository are thin orchestration code
    around the PINT pulsar-timing toolkit, numpy and matplotlib.  The
    embedding is layered:

    - [Py]: the fragment of Python the routines rely on (exceptions, a
      state-and-exception monad for in-place mutation, YAML-like values
      with their truthiness, subscripting, substring test);
    - [Fs]: the working directory and the file objects written to it;
    - [Np]: the numpy array operations that are used (boolean masks,
      reductions);
    - [Pint]: the collaborating objects (TOA set with its selection
      stack, timing model, fitter) and the drawing surface;
    - [Utils]: the functions of [utils/__init__.py] themselves;
    - [Spec]: the few notions that only the statements need;
    - [Sample]: a concrete TOA set, model and fitter.

    Floating-point numbers are kept abstract: every definition is
    parametric in a type [F] with the operations of [FloatOps], so that
    the statements hold for IEEE doubles as well as for the rational
    instance used to evaluate the code on concrete inputs. *)

From stdpp Require Import gmap strings list fin_maps.
From Stdlib Require Import QArith.
Close Scope Q_scope.

Set Warnings "-register-all".

(** ** Floating-point interface *)

(** The operations on MJD values, residuals and thresholds that the
    source performs.  [flt x y] is Python's [x < y]; [x > y] is [flt y x].
    [fis_zero] decides [x == 0.0] (truthiness of a float is its
    negation).  [fmaximum] and [fminimum] are the binary steps of
    numpy's [max] and [min] reductions.  [fhalf x] is [x / 2.].
    [of_int] is the conversion of a Python [int] to a float and
    [to_us] the unit conversion [.to(u.us)].  The two laws hold of IEEE
    arithmetic: no number is below itself, and addition commutes. *)
Class FloatOps (F : Type) := {
  fadd : F -> F -> F;
  fhalf : F -> F;
  flt : F -> F -> bool;
  fmaximum : F -> F -> F;
  fminimum : F -> F -> F;
  fis_zero : F -> bool;
  of_int : Z -> F;
  to_us : F -> F;
  flt_irrefl : forall x, flt x x = false;
  fadd_comm : forall x y, fadd x y = fadd y x
}.

Definition fgt {F} `{FloatOps F} (x y : F) : bool := flt y x.

(** Rational numbers: the instance on which the code is evaluated. *)
Definition Qltb (x y : Q) : bool :=
  (Qnum x * Zpos (Qden y) <? Qnum y * Zpos (Qden x))%Z.

#[export] Instance Q_float : FloatOps Q := {|
  fadd := Qplus;
  fhalf := fun x => Qdiv x (2 # 1);
  flt := Qltb;
  fmaximum := fun x y => if Qltb x y then y else x;
  fminimum := fun x y => if Qltb y x then y else x;
  fis_zero := fun x => (Qnum x =? 0)%Z;
  of_int := inject_Z;
  to_us := fun x => Qmult x (1000000 # 1);
  flt_irrefl := fun x => Z.ltb_irrefl (Qnum x * Zpos (Qden x));
  fadd_comm := fun x y =>
    f_equal2 Qmake
      (Z.add_comm (Qnum x * Zpos (Qden y)) (Qnum y * Zpos (Qden x)))
      (Pos.mul_comm (Qden x) (Qden y))
|}.

(** ** Python fragment *)

Module Py.

(** Exceptions.  [ValueError] and [KeyError] carry the message or key
    that the source or the interpreter attaches to them. *)
Inductive exn :=
| ValueError (msg : string)
| KeyError (key : string)
| TypeError
| IndexError
| AttributeError.

Inductive result (A : Type) :=
| Ok (a : A)
| Raise (e : exn).
Arguments Ok {A} a.
Arguments Raise {A} e.

(** A computation over a mutable state [S]: it ends in a new state
    together with a value or a raised exception.  An exception keeps the
    mutations made before it was raised. *)
Definition M (S A : Type) : Type := S -> S * result A.

Definition ret {S A} (a : A) : M S A := fun s => (s, Ok a).
Definition raise {S A} (e : exn) : M S A := fun s => (s, Raise e).
Definition lift {S A} (r : result A) : M S A := fun s => (s, r).
Definition bind {S A B} (c : M S A) (k : A -> M S B) : M S B :=
  fun s =>
    match c s with
    | (s', Ok a) => k a s'
    | (s', Raise e) => (s', Raise e)
    end.
Definition gets {S A} (f : S -> A) : M S A := fun s => (s, Ok (f s)).
Definition modify {S} (f : S -> S) : M S unit := fun s => (f s, Ok tt).

(** Run a computation on a component [T] of the state [S]. *)
Definition zoom {S T A} (proj : S -> T) (upd : T -> S -> S) (c : M T A) : M S A :=
  fun s => let (t', r) := c (proj s) in (upd t' s, r).

(** [try: c  except: pass] with a bare [except]: whatever [c] raises is
    dropped; the mutations [c] made before raising stay. *)
Definition try_except_pass {S} (c : M S unit) : M S unit :=
  fun s => let (s', _) := c s in (s', Ok tt).

(** [for x in l: body x] *)
Fixpoint for_in {S A} (l : list A) (body : A -> M S unit) : M S unit :=
  match l with
  | [] => ret tt
  | x :: l' => bind (body x) (fun _ => for_in l' body)
  end.

Module Notations.
Notation "'let!' x ':=' c 'in' k" := (bind c (fun x => k))
  (at level 10, x name, c at level 100, k at level 200, only parsing).
Notation "'let!' ' p ':=' c 'in' k" := (bind c (fun p => k))
  (at level 10, p strict pattern, c at level 100, k at level 200, only parsing).
Notation "c ';;;' k" := (bind c (fun _ => k))
  (at level 100, k at level 200, right associativity, only parsing).
End Notations.

(** [sub in s] on strings. *)
Fixpoint contains (sub s : string) : bool :=
  String.prefix sub s ||
  match s with
  | EmptyString => false
  | String _ s' => contains sub s'
  end.

(** ['%s' % x] for a value that may be [None]. *)
Definition str_of_option (o : option string) : string :=
  match o with
  | Some s => s
  | None => "None"
  end.

Section Values.
Context {F : Type} `{FloatOps F}.

(** Values as they come out of a YAML file or sit in a TOA's flag
    dictionary. *)
Inductive pyval :=
| PyNone
| PyBool (b : bool)
| PyInt (n : Z)
| PyFloat (x : F)
| PyStr (s : string)
| PyList (l : list pyval)
| PyDict (d : gmap string pyval).

(** [bool(v)], the test of an [if v:]. *)
Definition truthy (v : pyval) : bool :=
  match v with
  | PyNone => false
  | PyBool b => b
  | PyInt n => negb (n =? 0)%Z
  | PyFloat x => negb (fis_zero x)
  | PyStr s => match s with EmptyString => false | String _ _ => true end
  | PyList l => match l with [] => false | _ :: _ => true end
  | PyDict d => negb (size d =? 0)%nat
  end.

(** [v[key]] for a string key: a mapping without the key raises
    [KeyError]; a value that is no mapping raises [TypeError]. *)
Definition getitem (v : pyval) (key : string) : result pyval :=
  match v with
  | PyDict d =>
      match d !! key with
      | Some x => Ok x
      | None => Raise (KeyError key)
      end
  | _ => Raise TypeError
  end.

(** The float a number denotes ([bool] is a subclass of [int]). *)
Definition as_float (v : pyval) : option F :=
  match v with
  | PyBool b => Some (of_int (if b then 1 else 0)%Z)
  | PyInt n => Some (of_int n)
  | PyFloat x => Some x
  | _ => None
  end.
End Values.
Arguments pyval F : clear implicits.

(** [[f x for x in l]]: the elements in order, stopping at the first
    one on which [f] raises. *)
Fixpoint traverse {A B} (f : A -> result B) (l : list A) : result (list B) :=
  match l with
  | [] => Ok []
  | x :: l' =>
      match f x with
      | Ok y =>
          match traverse f l' with
          | Ok ys => Ok (y :: ys)
          | Raise e => Raise e
          end
      | Raise e => Raise e
      end
  end.

End Py.

(** ** Files *)

(** The working directory as a map from file names to contents.  A file
    object is identified with the name it was opened under. *)
Module Fs.
Import Py Py.Notations.

Abbreviation filesystem := (gmap string string).

(** [open(name, 'w')]: creates the file or truncates the one that is
    there. *)
Definition open_w (name : string) : M filesystem string :=
  modify (fun fs : filesystem => <[name := EmptyString]> fs) ;;;
  ret name.

(** [f.write(data)]: appends to what has been written since [open]. *)
Definition write (f : string) (data : string) : M filesystem unit :=
  modify (fun fs : filesystem => alter (fun old => old +:+ data) f fs).

(** [f.close()] *)
Definition close (f : string) : M filesystem unit := ret tt.

End Fs.

(** ** numpy fragment *)

Module Np.
Import Py.

(** [xs[mask]] once the shapes agree: the entries under a [True]. *)
Fixpoint compress {A} (mask : list bool) (xs : list A) : list A :=
  match mask, xs with
  | b :: mask', x :: xs' => if b then x :: compress mask' xs' else compress mask' xs'
  | _, _ => []
  end.

(** [xs[mask]] for a boolean array [mask]: the shapes must agree. *)
Definition index_mask {A} (xs : list A) (mask : list bool) : result (list A) :=
  if (length mask =? length xs)%nat then Ok (compress mask xs) else Raise IndexError.

(** [a & b] on boolean arrays of one shape. *)
Definition logical_and (a b : list bool) : list bool := zip_with andb a b.

(** [np.array([True]*n)], for a table that has records.  For [n = 0]
    numpy builds an empty array of floats, on which [&] is not defined;
    the embedding keeps the empty boolean mask there, so what is proved
    of a cut with an absent bound speaks of tables that have records. *)
Definition all_true (n : nat) : list bool := replicate n true.

Section Floats.
Context {F : Type} `{FloatOps F}.

(** [a.max()] and [a.min()]: reductions, undefined on an empty array. *)
Definition amax (a : list F) : result F :=
  match a with
  | [] => Raise (ValueError "zero-size array to reduction operation maximum which has no identity")
  | x :: a' => Ok (fold_left fmaximum a' x)
  end.

Definition amin (a : list F) : result F :=
  match a with
  | [] => Raise (ValueError "zero-size array to reduction operation minimum which has no identity")
  | x :: a' => Ok (fold_left fminimum a' x)
  end.

(** [(np.array((vals, idx)) > cut)[0]]: the pair of lists becomes a
    two-row numeric array only when both rows have one length and
    [vals] holds numbers; its first row is then compared with [cut].
    A ragged or non-numeric pair makes the comparison fail. *)
Definition array_gt_row0 (vals : list (pyval F)) (idx : list nat) (cut : F)
  : result (list bool) :=
  if (length idx =? length vals)%nat then
    match mapM as_float vals with
    | Some xs => Ok (map (fun x => fgt x cut) xs)
    | None => Raise TypeError
    end
  else Raise TypeError.
End Floats.

End Np.

(** ** The collaborating toolkit objects *)

Module Pint.
Import Py Py.Notations.

Section Objects.
Context {F : Type} `{FloatOps F}.

(** One time-of-arrival record: timestamp (MJD), uncertainty (in
    microseconds), observing site and the tagged attributes. *)
Record TOA := {
  mjd : F;
  error : F;
  obs : string;
  flags : gmap string (pyval F)
}.

(** Modelled from the spec: the TOA Set object of the toolkit, whose class
    is not part of this repository.  [table] is the active selection,
    [table_selects] the stack of tables that earlier selections pushed,
    [observatories] the site names recorded when the set was loaded (in
    the order in which iterating over that set yields them). *)
Record TOAs := {
  table : list TOA;
  table_selects : list (list TOA);
  observatories : list string
}.

(** [len(toas)] *)
Definition len : M TOAs nat := gets (fun t => length (table t)).

(** [toas.get_mjds()], [toas.get_errors()], [toas.get_obss()]: the
    columns of the active selection. *)
Definition get_mjds : M TOAs (list F) := gets (fun t => map mjd (table t)).
Definition get_errors : M TOAs (list F) := gets (fun t => map error (table t)).
Definition get_obss : M TOAs (list string) := gets (fun t => map obs (table t)).

(** [toas.get_flag_value(flag)]: the value of the attribute on every
    record ([None] where it is missing), and the indices of the records
    that carry it. *)
Fixpoint flag_indices (flag : string) (i : nat) (tb : list TOA) : list nat :=
  match tb with
  | [] => []
  | r :: tb' =>
      match flags r !! flag with
      | Some _ => i :: flag_indices flag (S i) tb'
      | None => flag_indices flag (S i) tb'
      end
  end.

Definition get_flag_value (flag : string) : M TOAs (list (pyval F) * list nat) :=
  gets (fun t =>
          (map (fun r => default PyNone (flags r !! flag)) (table t),
           flag_indices flag 0 (table t))).

(** Modelled from the spec: [toas.select(mask)] pushes the table that
    is active and narrows the active selection to the records under a
    [True] of [mask].  The push comes first, so it stays when the mask
    has the wrong shape.  (The toolkit keeps the table grouped by site;
    narrowing a grouped table leaves it grouped, so no reordering is
    modelled.) *)
Definition select (mask : list bool) : M TOAs unit :=
  modify (fun t => {| table := table t;
                      table_selects := table t :: table_selects t;
                      observatories := observatories t |}) ;;;
  let! tb := gets table in
  let! tb' := lift (Np.index_mask tb mask) in
  modify (fun t => {| table := tb';
                      table_selects := table_selects t;
                      observatories := observatories t |}).

(** Modelled from the spec: [toas.unselect()] returns to the table that
    the latest selection pushed; with nothing pushed it changes
    nothing. *)
Definition unselect : M TOAs unit :=
  modify (fun t =>
            match table_selects t with
            | tb :: stack => {| table := tb;
                                table_selects := stack;
                                observatories := observatories t |}
            | [] => t
            end).

(** [toas.print_summary()] writes to the terminal only. *)
Definition print_summary : M TOAs unit := ret tt.

(** Modelled from the spec: the Timing Model of the toolkit, reduced to
    the parameters this repository touches: the source name and the
    three epochs, each of which a model may lack. *)
Record TimingModel := {
  PSR : option string;
  PEPOCH : option F;
  POSEPOCH : option F;
  DMEPOCH : option F
}.

(** Modelled from the spec: [model.change_pepoch(t)] moves the primary
    spin epoch and fails loudly on a model without one. *)
Definition change_pepoch (t : F) : M TimingModel unit :=
  let! old := gets PEPOCH in
  match old with
  | Some _ =>
      modify (fun m => {| PSR := PSR m; PEPOCH := Some t;
                          POSEPOCH := POSEPOCH m; DMEPOCH := DMEPOCH m |})
  | None => raise (ValueError "PEPOCH is not currently set.")
  end.

(** Modelled from the spec: [model.change_posepoch(t)] moves the
    position epoch of a model that has one and raises otherwise. *)
Definition change_posepoch (t : F) : M TimingModel unit :=
  let! old := gets POSEPOCH in
  match old with
  | Some _ =>
      modify (fun m => {| PSR := PSR m; PEPOCH := PEPOCH m;
                          POSEPOCH := Some t; DMEPOCH := DMEPOCH m |})
  | None => raise AttributeError
  end.

(** Modelled from the spec: [model.change_dmepoch(t)] moves the
    dispersion-measure epoch of a model that has one and raises
    otherwise. *)
Definition change_dmepoch (t : F) : M TimingModel unit :=
  let! old := gets DMEPOCH in
  match old with
  | Some _ =>
      modify (fun m => {| PSR := PSR m; PEPOCH := PEPOCH m;
                          POSEPOCH := POSEPOCH m; DMEPOCH := Some t |})
  | None => raise AttributeError
  end.

(** Timing models live in a store and are passed by reference, so that
    a caller sees what a callee did to the object it handed over. *)
Definition ref := positive.

(** [obj.meth(...)]: run a method on the object a reference points to,
    writing its new state back.  A reference outside the store denotes
    no object with such a method. *)
Definition call {A} (r : ref) (meth : M TimingModel A) : M (gmap ref TimingModel) A :=
  fun h =>
    match h !! r with
    | Some m => let (m', res) := meth m in (<[r := m']> h, res)
    | None => (h, Raise AttributeError)
    end.

(** The fitter: its TOA set, its model and the residuals (in seconds)
    before and after the fit. *)
Record Fitter := {
  toas : TOAs;
  model : TimingModel;
  resids_init : list F;
  resids : list F
}.

Definition with_toas (t : TOAs) (f : Fitter) : Fitter :=
  {| toas := t; model := model f; resids_init := resids_init f; resids := resids f |}.

(** What matplotlib has been asked to draw on the current figure. *)
Inductive plot_call :=
| Errorbar (x y yerr : list F) (fmt label : string)
| Title (s : string)
| Xlabel (s : string)
| Ylabel (s : string)
| Grid
| Legend.

End Objects.
Arguments TOA F : clear implicits.
Arguments TOAs F : clear implicits.
Arguments TimingModel F : clear implicits.
Arguments Fitter F : clear implicits.
Arguments plot_call F : clear implicits.

End Pint.

(** ** The functions of [utils/__init__.py] *)

Module Utils.
Import Py Py.Notations Pint.

Definition newline : string := String (Ascii.ascii_of_nat 10) EmptyString.

Section Functions.
Context {F : Type} `{FloatOps F}.

(** [fitter.model.as_parfile()]: the toolkit's serialisation of the full
    parameter set of a model. *)
Variable as_parfile : TimingModel F -> string.

(** [date.today().strftime('%Y%m%d')] as the clock gives it while the
    calls under consideration run. *)
Variable today : string.

(** [write_par(fitter, addext='')].  [fitter.get_allparams()['PSR']] is
    the value of the model's source-name parameter. *)
Definition write_par (fitter : Fitter F) (addext : string) : M Fs.filesystem unit :=
  let source := str_of_option (PSR (model fitter)) in
  let date_str := today in
  let outfile := source +:+ "_PINT_" +:+ date_str +:+ addext +:+ ".par" in
  let! fout := Fs.open_w outfile in
  Fs.write fout (as_parfile (model fitter)) ;;;
  Fs.close fout.

(** [write_include_tim(source, tim_file_list)] *)
Definition write_include_tim (source : string) (tim_file_list : list string)
  : M Fs.filesystem string :=
  let out_tim := source +:+ ".tim" in
  let! f := Fs.open_w out_tim in
  for_in tim_file_list (fun tf => Fs.write f ("INCLUDE " +:+ tf +:+ newline)) ;;;
  Fs.close f ;;;
  ret out_tim.

(** The objects [plot_res] works on: the fitter it is handed (whose TOA
    set it mutates in place) and matplotlib's current figure, as the
    sequence of drawing calls made so far. *)
Record Scene := {
  fit : Fitter F;
  figure : list (plot_call F)
}.

Definition on_toas {A} (c : M (TOAs F) A) : M Scene A :=
  zoom (fun s => toas (fit s))
       (fun t s => {| fit := with_toas t (fit s); figure := figure s |}) c.

Definition plt (c : plot_call F) : M Scene unit :=
  modify (fun s => {| fit := fit s; figure := figure s ++ [c] |}).

(** [plot_res(fitter, restype='prefit')] *)
Definition plot_res (restype : string) : M Scene unit :=
  let! obslist := gets (fun s => observatories (toas (fit s))) in
  for_in obslist (fun obso =>
    let! obss := on_toas get_obss in
    let select_array := map (fun o => String.eqb o obso) obss in
    on_toas (select select_array) ;;;
    let! restype_str :=
      (if contains "pre" restype then
         let! x := on_toas get_mjds in
         let! r := gets (fun s => resids_init (fit s)) in
         let! y := lift (Np.index_mask (map to_us r) select_array) in
         let! yerr := on_toas get_errors in
         plt (Errorbar x y yerr "x" obso) ;;;
         ret "Pre"
       else if contains "post" restype then
         let! x := on_toas get_mjds in
         let! r := gets (fun s => resids (fit s)) in
         let! y := lift (Np.index_mask (map to_us r) select_array) in
         let! yerr := on_toas get_errors in
         plt (Errorbar x y yerr "x" obso) ;;;
         ret "Post"
       else
         raise (ValueError ("Residual type (" +:+ restype +:+
                            ") not recognized. Try prefit/postfit."))) in
    let! psr := gets (fun s => PSR (model (fit s))) in
    plt (Title (str_of_option psr +:+ " " +:+ restype_str +:+ "-Fit Timing Residuals")) ;;;
    plt (Xlabel "MJD") ;;;
    plt (Ylabel "Residual (us)") ;;;
    plt Grid ;;;
    plt Legend ;;;
    on_toas unselect).

(** [center_epochs(model, toas)], over the three methods that the
    object bound to [model] provides. *)
Definition center_epochs_with
    (change_pepoch change_posepoch change_dmepoch : F -> M (TimingModel F) unit)
    (model : ref) (toas : TOAs F) : M (gmap ref (TimingModel F)) ref :=
  let! hi := lift (Np.amax (map mjd (table toas))) in
  let! lo := lift (Np.amin (map mjd (table toas))) in
  let midmjd := fhalf (fadd hi lo) in
  call model (change_pepoch midmjd) ;;;
  try_except_pass (call model (change_posepoch midmjd)) ;;;
  try_except_pass (call model (change_dmepoch midmjd)) ;;;
  ret model.

(** [center_epochs] on the toolkit's timing model. *)
Definition center_epochs (model : ref) (toas : TOAs F)
  : M (gmap ref (TimingModel F)) ref :=
  center_epochs_with change_pepoch change_posepoch change_dmepoch model toas.

(** [apply_snr_cut(toas, snr_cut, summary=False)] *)
Definition apply_snr_cut (snr_cut : F) (summary : bool) : M (TOAs F) unit :=
  let! '(vals, idx) := get_flag_value "snr" in
  let! mask := lift (Np.array_gt_row0 vals idx snr_cut) in
  select mask ;;;
  if summary then print_summary else ret tt.

(** [v*u.d] compared with the MJD column: [v] has to be a number. *)
Definition days (v : pyval F) : result F :=
  match as_float v with
  | Some x => Ok x
  | None => Raise TypeError
  end.

(** The first [if] of [apply_mjd_cut]: the mask [select_min]. *)
Definition select_min (configDict : pyval F) : M (TOAs F) (list bool) :=
  let! ignore := lift (getitem configDict "ignore") in
  let! start := lift (getitem ignore "mjd-start") in
  if truthy start then
    let! ignore := lift (getitem configDict "ignore") in
    let! mjd_min := lift (getitem ignore "mjd-start") in
    let! mjds := get_mjds in
    let! bound := lift (days mjd_min) in
    ret (map (fun t => fgt t bound) mjds)
  else
    let! n := len in
    ret (Np.all_true n).

(** The second [if] of [apply_mjd_cut]: the mask [select_max]. *)
Definition select_max (configDict : pyval F) : M (TOAs F) (list bool) :=
  let! ignore := lift (getitem configDict "ignore") in
  let! stop := lift (getitem ignore "mjd-end") in
  if truthy stop then
    let! ignore := lift (getitem configDict "ignore") in
    let! mjd_max := lift (getitem ignore "mjd-end") in
    let! mjds := get_mjds in
    let! bound := lift (days mjd_max) in
    ret (map (fun t => flt t bound) mjds)
  else
    let! n := len in
    ret (Np.all_true n).

(** [apply_mjd_cut(toas, configDict, summary=False)] *)
Definition apply_mjd_cut (configDict : pyval F) (summary : bool) : M (TOAs F) unit :=
  let! smin := select_min configDict in
  let! smax := select_max configDict in
  select (Np.logical_and smin smax) ;;;
  if summary then print_summary else ret tt.

End Functions.
Arguments Scene F : clear implicits.

Section Loader.
Context {F : Type} `{FloatOps F}.

(** What the interpreter does with configuration values of any type:
    ['%s' % v], [a + b] and the iteration [for x in v]. *)
Variable py_str : pyval F -> string.
Variable py_add : pyval F -> pyval F -> result (pyval F).
Variable py_iter : pyval F -> result (list (pyval F)).

(** [set(values)] *)
Variable Receivers : Type.
Variable py_set : list (pyval F) -> result Receivers.

(** The toolkit's readers: [toa.get_TOAs(name, usepickle=..,
    bipm_version=.., ephem=..)] and [models.get_model(path)], with the
    timing model as they build it, the test
    ['AstrometryEquatorial' in mo.components] and the in-place
    conversion [model_equatorial_to_ecliptic(mo)]. *)
Variable Model : Type.
Variable get_TOAs : string -> bool -> pyval F -> pyval F -> M Fs.filesystem (TOAs F).
Variable get_model : pyval F -> M Fs.filesystem Model.
Variable has_component : string -> Model -> bool.
Variable model_equatorial_to_ecliptic : Model -> M Fs.filesystem Model.

(** The checks of [utils/par_checker.py]. *)
Variable check_ephem : TOAs F -> M Fs.filesystem unit.
Variable check_bipm : TOAs F -> M Fs.filesystem unit.
Variable check_name : Model -> M Fs.filesystem unit.
Variable check_jumps : Model -> Receivers -> M Fs.filesystem unit.

(** [load_and_check(configDict, usepickle=False)] *)
Definition load_and_check (configDict : pyval F) (usepickle : bool)
  : M Fs.filesystem (TOAs F * Model) :=
  let! source := lift (getitem configDict "source") in
  let! tim_path := lift (getitem configDict "tim-directory") in
  let! toas_names := lift (getitem configDict "toas") in
  let! names := lift (py_iter toas_names) in
  let! tim_files := lift (traverse (fun tf => py_add tim_path tf) names) in
  let! tim_filename := write_include_tim (py_str source) (map py_str tim_files) in
  let! bipm := lift (getitem configDict "bipm") in
  let! ephem := lift (getitem configDict "ephem") in
  let! to := get_TOAs tim_filename usepickle bipm ephem in
  check_ephem to ;;;
  check_bipm to ;;;
  let! receivers :=
    lift (py_set (map (fun r => default PyNone (flags r !! "fe")) (table to))) in
  let! par_path := lift (getitem configDict "par-directory") in
  let! par_name := lift (getitem configDict "timing-model") in
  let! par_file := lift (py_add par_path par_name) in
  let! mo := get_model par_file in
  let! mo :=
    (if has_component "AstrometryEquatorial" mo
     then model_equatorial_to_ecliptic mo
     else ret mo) in
  check_name mo ;;;
  check_jumps mo receivers ;;;
  ret (to, mo).

(** [check_fit(fitter)], over the two checks of
    [utils/par_checker.py] it runs on the fitter's model. *)
Variable check_spin : TimingModel F -> M Fs.filesystem unit.
Variable check_astrometry : TimingModel F -> M Fs.filesystem unit.

Definition check_fit (fitter : Fitter F) : M Fs.filesystem unit :=
  check_spin (model fitter) ;;;
  check_astrometry (model fitter).

End Loader.

End Utils.

(** ** Notions of the specification *)

Module Spec.
Import Py Pint.

Section Notions.
Context {F : Type} `{FloatOps F}.

(** The signal-to-noise ratio a record is tagged with, when it carries
    one that is a number. *)
Definition snr (r : TOA F) : option F :=
  match flags r !! "snr" with
  | Some v => as_float v
  | None => None
  end.

(** A bound of the time window that the code can use: a value that
    counts as absent, or a number. *)
Definition usable_bound (v : pyval F) : Prop :=
  truthy v = false \/ is_Some (as_float v).

(** [x <= y] in terms of the comparison of the code, and what it takes
    for that comparison to order the numbers at hand (as it does on
    floats that are not NaN): it is transitive, and the binary maximum
    and minimum return one of their arguments, above and below both. *)
Definition fle (x y : F) : Prop := flt y x = false.

Definition ordered : Prop :=
  (forall x y z, fle x y -> fle y z -> fle x z)
  /\ (forall x y, fmaximum x y = x \/ fmaximum x y = y)
  /\ (forall x y, fle x (fmaximum x y) /\ fle y (fmaximum x y))
  /\ (forall x y, fminimum x y = x \/ fminimum x y = y)
  /\ (forall x y, fle (fminimum x y) x /\ fle (fminimum x y) y).

(** Whether a record passes the lower and the upper bound of a window,
    a bound that counts as absent letting every record pass. *)
Definition above (v : pyval F) (r : TOA F) : bool :=
  if truthy v then
    match as_float v with
    | Some a => fgt (mjd r) a
    | None => false
    end
  else true.

Definition below (v : pyval F) (r : TOA F) : bool :=
  if truthy v then
    match as_float v with
    | Some b => flt (mjd r) b
    | None => false
    end
  else true.

(** What one observing site contributes to a residual plot: the
    error-bar series of its records (timestamps, residuals in
    microseconds, uncertainties), then title, axis labels, grid and
    legend.  [res] is the residual column, record by record. *)
Definition site_round (stage : string) (res : list F) (psr : option string)
    (tb : list (TOA F)) (obso : string) : list (plot_call F) :=
  [Errorbar
     (map mjd (List.filter (fun r => String.eqb (obs r) obso) tb))
     (map (fun p => to_us (snd p))
          (List.filter (fun p => String.eqb (obs (fst p)) obso) (combine tb res)))
     (map error (List.filter (fun r => String.eqb (obs r) obso) tb))
     "x" obso;
   Title (str_of_option psr +:+ " " +:+ stage +:+ "-Fit Timing Residuals");
   Xlabel "MJD";
   Ylabel "Residual (us)";
   Grid;
   Legend].

End Notions.

(** The lines of a text file, as a reader that splits at newline
    characters sees them (line terminators dropped). *)
Definition is_newline (c : Ascii.ascii) : bool :=
  Ascii.eqb c (Ascii.ascii_of_nat 10).

Fixpoint has_newline (s : string) : bool :=
  match s with
  | EmptyString => false
  | String c s' => is_newline c || has_newline s'
  end.

Fixpoint split_lines (s : string) : list string :=
  match s with
  | EmptyString => []
  | String c s' =>
      if is_newline c then EmptyString :: split_lines s'
      else match split_lines s' with
           | [] => [String c EmptyString]
           | l :: ls => String c l :: ls
           end
  end.

End Spec.

(** ** Concrete data

    A small TOA set over the rationals, observed from two sites, with a
    model and a fitter around it.  The statements below are evaluated
    on it. *)

Module Sample.
Import Py Pint Utils.

Definition toa (t : Z) (site : string) (snr : Z) : TOA Q :=
  {| mjd := inject_Z t; error := inject_Z 1; obs := site;
     flags := {[ "snr" := PyInt snr ]} |}.

(** Three records: MJD 58000 and 58010 at Arecibo, MJD 58020 at Green
    Bank, with signal-to-noise 5, 8 and 12. *)
Definition three_toas : TOAs Q :=
  {| table := [toa 58000 "ao" 5; toa 58010 "ao" 8; toa 58020 "gbt" 12];
     table_selects := [];
     observatories := ["ao"; "gbt"] |}.

Definition no_toas : TOAs Q :=
  {| table := []; table_selects := []; observatories := [] |}.

Definition bare_model : TimingModel Q :=
  {| PSR := Some "J0000+0000"; PEPOCH := Some (inject_Z 55000);
     POSEPOCH := None; DMEPOCH := None |}.

Definition full_model : TimingModel Q :=
  {| PSR := Some "J0000+0000"; PEPOCH := Some (inject_Z 55000);
     POSEPOCH := Some (inject_Z 55000); DMEPOCH := Some (inject_Z 55000) |}.

Definition fitter_of (t : TOAs Q) : Fitter Q :=
  {| toas := t; model := bare_model;
     resids_init := [inject_Z 1; inject_Z 2; inject_Z 3];
     resids := [inject_Z 0; inject_Z 0; inject_Z 0] |}.

(** The same fitter once its model's primary epoch has been moved. *)
Definition refitted (t : TOAs Q) : Fitter Q :=
  {| toas := t;
     model := {| PSR := Some "J0000+0000"; PEPOCH := Some (inject_Z 58010);
                 POSEPOCH := None; DMEPOCH := None |};
     resids_init := [inject_Z 1; inject_Z 2; inject_Z 3];
     resids := [inject_Z 0; inject_Z 0; inject_Z 0] |}.

Definition scene_of (t : TOAs Q) : Scene Q :=
  {| fit := fitter_of t; figure := [] |}.

(** The configuration [{ignore: {mjd-start: a, mjd-end: b}}]. *)
Definition window_ignore (a b : pyval Q) : gmap string (pyval Q) :=
  <[ "mjd-start" := a ]> {[ "mjd-end" := b ]}.

Definition window_dict (a b : pyval Q) : gmap string (pyval Q) :=
  {[ "ignore" := PyDict (window_ignore a b) ]}.

Definition window (a b : pyval Q) : pyval Q := PyDict (window_dict a b).

(** A serialisation that writes the source name and the primary epoch. *)
Definition parfile (m : TimingModel Q) : string :=
  "PSR " +:+ str_of_option (PSR m) +:+
  match PEPOCH m with
  | Some (Qmake n _) => if (n =? 55000)%Z then " PEPOCH 55000" else " PEPOCH moved"
  | None => EmptyString
  end.

(** A record that carries no signal-to-noise attribute, and a TOA set
    that holds it. *)
Definition untagged_toa : TOA Q :=
  {| mjd := inject_Z 58030; error := inject_Z 1; obs := "gbt"; flags := ∅ |}.

Definition untagged_toas : TOAs Q :=
  {| table := [toa 58000 "ao" 5; untagged_toa];
     table_selects := [];
     observatories := ["ao"; "gbt"] |}.

(** A fitter whose pre-fit residuals are one short of its three
    records. *)
Definition short_scene : Scene Q :=
  {| fit := {| toas := three_toas; model := bare_model;
               resids_init := [inject_Z 1; inject_Z 2];
               resids := [inject_Z 0; inject_Z 0; inject_Z 0] |};
     figure := [] |}.

(** A configuration for the loader, and the same without its [bipm]
    and without its [toas] entry. *)
Definition config : gmap string (pyval Q) :=
  list_to_map
    [("source", PyStr "J0000+0000");
     ("tim-directory", PyStr "./tim/");
     ("toas", PyList [PyStr "a.tim"; PyStr "b.tim"]);
     ("bipm", PyStr "BIPM2017");
     ("ephem", PyStr "DE436");
     ("par-directory", PyStr "./par/");
     ("timing-model", PyStr "J0000+0000.par")].

Definition config_without (key : string) : gmap string (pyval Q) :=
  delete key config.

(** Stand-ins for the interpreter and the toolkit, right on the values
    of the sample configuration: formatting, addition and iteration of
    strings and lists; a TOA reader that wants the manifest to be
    there; a model reader that yields an equatorial model (the flag
    beside the model); a conversion that clears the flag; checks that
    pass, and one that fails. *)
Definition format_value (v : pyval Q) : string :=
  match v with
  | PyStr s => s
  | PyBool true => "True"
  | PyBool false => "False"
  | _ => "None"
  end.

Definition add_values (a b : pyval Q) : result (pyval Q) :=
  match a, b with
  | PyStr x, PyStr y => Ok (PyStr (x +:+ y))
  | PyList x, PyList y => Ok (PyList (x ++ y))
  | PyInt m, PyInt n => Ok (PyInt (m + n))
  | _, _ => Raise TypeError
  end.

Definition iterate (v : pyval Q) : result (list (pyval Q)) :=
  match v with
  | PyList l => Ok l
  | _ => Raise TypeError
  end.

Definition as_set (l : list (pyval Q)) : result (list (pyval Q)) := Ok l.

Definition read_toas (name : string) (usepickle : bool) (bipm ephem : pyval Q)
  : M Fs.filesystem (TOAs Q) :=
  fun fs =>
    match fs !! name with
    | Some _ => (fs, Ok three_toas)
    | None => (fs, Raise (ValueError "manifest not found"))
    end.

Definition read_model (path : pyval Q) : M Fs.filesystem (bool * TimingModel Q) :=
  ret (true, bare_model).

Definition is_component (name : string) (m : bool * TimingModel Q) : bool :=
  String.eqb name "AstrometryEquatorial" && fst m.

Definition to_ecliptic (m : bool * TimingModel Q) : M Fs.filesystem (bool * TimingModel Q) :=
  ret (false, snd m).

Definition passes {A} (x : A) : M Fs.filesystem unit := ret tt.

Definition fails {A} (x : A) : M Fs.filesystem unit :=
  raise (ValueError "check failed").

Definition jumps_pass (m : bool * TimingModel Q) (rc : list (pyval Q))
  : M Fs.filesystem unit := ret tt.

(** The loader over these stand-ins, for a given ephemeris check. *)
Definition load (check_ephem : TOAs Q -> M Fs.filesystem unit)
    (configDict : pyval Q) (usepickle : bool)
  : M Fs.filesystem (TOAs Q * (bool * TimingModel Q)) :=
  load_and_check format_value add_values iterate (list (pyval Q)) as_set
                 (bool * TimingModel Q) read_toas read_model is_component to_ecliptic
                 check_ephem passes passes jumps_pass configDict usepickle.

(** The manifest of the sample configuration. *)
Definition manifest : string :=
  "INCLUDE ./tim/a.tim" +:+ newline +:+ "INCLUDE ./tim/b.tim" +:+ newline.

End Sample.

(** * Properties *)

Import Py Py.Notations Pint Utils.

(** Unfolds the plumbing of the monad, leaving the data. *)
Ltac run :=
  unfold bind, ret, raise, lift, gets, modify, zoom, try_except_pass; simpl.

(** ** Strings *)

Lemma str_app_cons (c : Ascii.ascii) (a b : string) :
  String c a +:+ b = String c (a +:+ b).
Proof. reflexivity. Qed.

Lemma str_app_nil_r (s : string) : s +:+ EmptyString = s.
Proof.
  induction s as [|c s IH]; [reflexivity|].
  now rewrite str_app_cons, IH.
Qed.

Lemma str_app_assoc (a b c : string) : (a +:+ b) +:+ c = a +:+ (b +:+ c).
Proof.
  induction a as [|x a IH]; [reflexivity|].
  now rewrite !str_app_cons, IH.
Qed.

Lemma str_app_length (a b : string) :
  String.length (a +:+ b) = String.length a + String.length b.
Proof.
  induction a as [|x a IH]; [reflexivity|].
  rewrite str_app_cons. simpl. now rewrite IH.
Qed.

Lemma str_app_inv_tail (a b t : string) : a +:+ t = b +:+ t -> a = b.
Proof.
  revert b. induction a as [|x a IH]; intros [|y b] E.
  - reflexivity.
  - apply (f_equal String.length) in E.
    rewrite !str_app_length in E. simpl in E. lia.
  - apply (f_equal String.length) in E.
    rewrite !str_app_length in E. simpl in E. lia.
  - rewrite !str_app_cons in E. injection E as -> E. f_equal. now apply IH.
Qed.

(** ** The manifest writer *)

(** The loop appends the lines, in order, to what the file holds. *)
Lemma for_in_write (f : string) (l : list string) (fs : gmap string string) :
  for_in l (fun tf => Fs.write f ("INCLUDE " +:+ tf +:+ newline)) fs =
  (alter (fun old => old +:+ foldr String.append EmptyString
                                (map (fun tf => "INCLUDE " +:+ tf +:+ newline) l)) f fs,
   Ok tt).
Proof.
  revert fs. induction l as [|tf l IH]; intros fs; simpl.
  - unfold ret. f_equal. symmetry. apply alter_id.
    intros old _. apply str_app_nil_r.
  - unfold bind at 1. unfold Fs.write at 1, modify. rewrite IH.
    f_equal. rewrite alter_alter_eq. apply alter_ext.
    intros old _. simpl. apply str_app_assoc.
Qed.

Lemma write_include_tim_run
    (source : string) (tim_file_list : list string) (fs : gmap string string) :
  write_include_tim source tim_file_list fs =
  (<[source +:+ ".tim" :=
       foldr String.append EmptyString
             (map (fun tf => "INCLUDE " +:+ tf +:+ newline) tim_file_list)]> fs,
   Ok (source +:+ ".tim")).
Proof.
  unfold write_include_tim, Fs.open_w, Fs.close. run.
  rewrite for_in_write. simpl.
  now rewrite alter_insert_eq.
Qed.

(** What is written: one chunk [INCLUDE <name>] plus newline per file
    name, in order, into [<source>.tim]. *)
Lemma write_include_tim_chunks
    (source : string) (tim_file_list : list string) (fs : gmap string string) :
  exists lines : list string,
    write_include_tim source tim_file_list fs =
      (<[source +:+ ".tim" := foldr String.append EmptyString lines]> fs,
       Ok (source +:+ ".tim"))
    /\ length lines = length tim_file_list
    /\ Forall2 (fun tf line => line = "INCLUDE " +:+ tf +:+ newline)
               tim_file_list lines.
Proof.
  exists (map (fun tf => "INCLUDE " +:+ tf +:+ newline) tim_file_list).
  split; [|split].
  - apply write_include_tim_run.
  - apply length_map.
  - induction tim_file_list as [|tf l IH]; simpl; constructor; auto.
Qed.

(** Read back by a reader that splits at newlines, the manifest of
    names that hold no newline has one line per name. *)
Lemma split_lines_terminated (l rest : string) :
  Spec.has_newline l = false ->
  Spec.split_lines (l +:+ newline +:+ rest) = l :: Spec.split_lines rest.
Proof.
  induction l as [|c l IH]; intros Hl.
  - reflexivity.
  - simpl in Hl. apply orb_false_iff in Hl as [Hc Hl].
    rewrite str_app_cons. simpl. rewrite Hc, (IH Hl). reflexivity.
Qed.

Lemma write_include_tim_read_back
    (source : string) (tim_file_list : list string) (fs : gmap string string) :
  Forall (fun tf => Spec.has_newline tf = false) tim_file_list ->
  exists content,
    fst (write_include_tim source tim_file_list fs) !! (source +:+ ".tim") = Some content
    /\ Spec.split_lines content = map (fun tf => "INCLUDE " +:+ tf) tim_file_list
    /\ length (Spec.split_lines content) = length tim_file_list.
Proof.
  intros Hall. rewrite write_include_tim_run. simpl.
  eexists. split; [apply lookup_insert_eq|].
  assert (E : Spec.split_lines
                (foldr String.append EmptyString
                   (map (fun tf => "INCLUDE " +:+ tf +:+ newline) tim_file_list))
              = map (fun tf => "INCLUDE " +:+ tf) tim_file_list).
  { induction Hall as [|tf l Htf _ IH]; [reflexivity|].
    rewrite !map_cons. cbn [foldr]. rewrite <- IH.
    rewrite <- (str_app_assoc "INCLUDE " tf newline).
    rewrite (str_app_assoc ("INCLUDE " +:+ tf) newline).
    apply split_lines_terminated. exact Htf. }
  rewrite E. split; [reflexivity | apply length_map].
Qed.

(** ** The model writer *)

Section WritePar.
Context {F : Type} `{FloatOps F}.
Variable as_parfile : TimingModel F -> string.
Variable today : string.

(** One call: the file named after source, date and suffix holds the
    serialised model, whatever was there before. *)
Lemma write_par_run (fitter : Fitter F) (addext : string) (fs : gmap string string) :
  write_par as_parfile today fitter addext fs =
  (<[str_of_option (PSR (model fitter)) +:+ "_PINT_" +:+ today +:+ addext +:+ ".par"
     := as_parfile (model fitter)]> fs, Ok tt).
Proof.
  unfold write_par, Fs.open_w, Fs.write, Fs.close. run.
  now rewrite alter_insert_eq.
Qed.

(** Different suffixes give different file names. *)
Lemma par_name_inj (source date e1 e2 : string) :
  source +:+ "_PINT_" +:+ date +:+ e1 +:+ ".par" =
  source +:+ "_PINT_" +:+ date +:+ e2 +:+ ".par" -> e1 = e2.
Proof.
  intros E.
  apply (inj (String.append source)) in E.
  apply (inj (String.append "_PINT_")) in E.
  apply (inj (String.append date)) in E.
  now apply str_app_inv_tail in E.
Qed.

(** C7.  [write_par] writes the model's parameter file to
    [<source>_PINT_<date><suffix>.par], replacing a file of that name and touching no
    other.  Two calls on one day for one source with different suffixes
    leave two distinct files, each with its content; two calls with the
    same source, day and suffix leave the one file of the first call,
    holding what the second call wrote. *)
Theorem write_par_names_and_overwrites
    (source ext ext' : string) (fitter fitter' : Fitter F) (fs : gmap string string) :
  PSR (model fitter) = Some source ->
  PSR (model fitter') = Some source ->
  ext <> ext' ->
  let name := fun e => source +:+ "_PINT_" +:+ today +:+ e +:+ ".par" in
  let after1 := fst (write_par as_parfile today fitter ext fs) in
  let after_other := fst (write_par as_parfile today fitter' ext' after1) in
  let after_same := fst (write_par as_parfile today fitter' ext after1) in
  (write_par as_parfile today fitter ext fs =
     (<[name ext := as_parfile (model fitter)]> fs, Ok tt))
  /\ (name ext <> name ext'
      /\ after_other !! name ext = Some (as_parfile (model fitter))
      /\ after_other !! name ext' = Some (as_parfile (model fitter')))
  /\ (after_same = <[name ext := as_parfile (model fitter')]> fs
      /\ after_same !! name ext = Some (as_parfile (model fitter'))
      /\ dom after_same = dom after1).
Proof.
  intros HS HS' HE name after1 after_other after_same.
  assert (Hne : name ext <> name ext').
  { intros Heq. apply HE. now apply (par_name_inj source today). }
  subst after_other after_same after1.
  rewrite !write_par_run, HS, HS'. simpl. fold (name ext) (name ext').
  split; [reflexivity|]. split; [split; [exact Hne|split]|split; [|split]].
  - rewrite lookup_insert_ne by (intros X; now apply Hne).
    apply lookup_insert_eq.
  - apply lookup_insert_eq.
  - apply insert_insert_eq.
  - apply lookup_insert_eq.
  - rewrite insert_insert_eq, !dom_insert_L. reflexivity.
Qed.

End WritePar.

(** The sample fitter written on 1 January 2020 and written again after
    a refit, under another suffix and under the same one. *)
Lemma write_par_names_and_overwrites_witness :
  let name := fun e => "J0000+0000" +:+ "_PINT_" +:+ "20200101" +:+ e +:+ ".par" in
  let fitter := Sample.fitter_of Sample.three_toas in
  let fitter' := Sample.refitted Sample.three_toas in
  let after1 := fst (write_par Sample.parfile "20200101" fitter "_a" ∅) in
  let after_other := fst (write_par Sample.parfile "20200101" fitter' EmptyString after1) in
  let after_same := fst (write_par Sample.parfile "20200101" fitter' "_a" after1) in
  write_par Sample.parfile "20200101" fitter "_a" ∅ =
    (<[name "_a" := "PSR J0000+0000 PEPOCH 55000"]> ∅, Ok tt)
  /\ (name "_a" <> name EmptyString
      /\ after_other !! name "_a" = Some "PSR J0000+0000 PEPOCH 55000"
      /\ after_other !! name EmptyString = Some "PSR J0000+0000 PEPOCH moved")
  /\ (after_same = <[name "_a" := "PSR J0000+0000 PEPOCH moved"]> ∅
      /\ after_same !! name "_a" = Some "PSR J0000+0000 PEPOCH moved"
      /\ dom after_same = dom after1).
Proof.
  apply (write_par_names_and_overwrites Sample.parfile "20200101"
           "J0000+0000" "_a" EmptyString
           (Sample.fitter_of Sample.three_toas) (Sample.refitted Sample.three_toas) ∅).
  - reflexivity.
  - reflexivity.
  - discriminate.
Defined.

(** ** Masks and the selection stack *)

Lemma compress_map_filter {A} (f : A -> bool) (xs : list A) :
  Np.compress (map f xs) xs = List.filter f xs.
Proof.
  induction xs as [|x xs IH]; simpl; [reflexivity|].
  rewrite IH. reflexivity.
Qed.

Lemma compress_all_true {A} (xs : list A) :
  Np.compress (Np.all_true (length xs)) xs = xs.
Proof.
  induction xs as [|x xs IH]; simpl; [reflexivity|].
  unfold Np.all_true in IH. now rewrite IH.
Qed.

Lemma logical_and_map {A} (f g : A -> bool) (xs : list A) :
  Np.logical_and (map f xs) (map g xs) = map (fun x => f x && g x) xs.
Proof.
  unfold Np.logical_and.
  induction xs as [|x xs IH]; simpl; [reflexivity | now rewrite IH].
Qed.

Lemma logical_and_true_l (n : nat) (m : list bool) :
  length m = n -> Np.logical_and (Np.all_true n) m = m.
Proof.
  unfold Np.logical_and, Np.all_true. revert n.
  induction m as [|b m IH]; intros [|n] E; simpl in *; try discriminate;
    [reflexivity|].
  f_equal. apply IH. congruence.
Qed.


Lemma logical_and_length (a b : list bool) (n : nat) :
  length a = n -> length b = n -> length (Np.logical_and a b) = n.
Proof.
  unfold Np.logical_and. intros Ha Hb.
  rewrite length_zip_with. lia.
Qed.

Section Selection.
Context {F : Type} `{FloatOps F}.

(** A mask of the right shape: one push, and the table narrowed. *)
Lemma select_run (mask : list bool) (t : TOAs F) :
  length mask = length (table t) ->
  select mask t =
  ({| table := Np.compress mask (table t);
      table_selects := table t :: table_selects t;
      observatories := observatories t |}, Ok tt).
Proof.
  intros Hlen. unfold select. run. unfold Np.index_mask.
  rewrite Hlen, Nat.eqb_refl. reflexivity.
Qed.

(** The summary at the end of a cut changes nothing. *)
Lemma summary_noop {A} (c : M (TOAs F) A) (summary : bool) (t : TOAs F) :
  (c ;;; if summary then print_summary else ret tt) t =
  (fst (c t), match snd (c t) with Ok _ => Ok tt | Raise e => Raise e end).
Proof.
  unfold bind. destruct (c t) as [t' [a|e]]; simpl; [|reflexivity].
  destruct summary; reflexivity.
Qed.

End Selection.

(** ** The signal-to-noise cut *)

Section SnrCut.
Context {F : Type} `{FloatOps F}.

Lemma flag_indices_length (flag : string) (i : nat) (tb : list (TOA F)) :
  Forall (fun r => is_Some (flags r !! flag)) tb ->
  length (flag_indices flag i tb) = length tb.
Proof.
  intros Hall. revert i.
  induction Hall as [|r tb [v Hv] _ IH]; intros i; simpl; [reflexivity|].
  rewrite Hv. simpl. now rewrite IH.
Qed.

Lemma snr_has_flag (r : TOA F) : is_Some (Spec.snr r) -> is_Some (flags r !! "snr").
Proof.
  unfold Spec.snr. destruct (flags r !! "snr"); [eauto | intros [? ?]; discriminate].
Qed.

(** With a numeric attribute on every record, the comparison of the
    flag column with the threshold is the record-wise test. *)
Lemma snr_mask (T : F) (tb : list (TOA F)) :
  Forall (fun r => is_Some (Spec.snr r)) tb ->
  Np.array_gt_row0 (map (fun r => default PyNone (flags r !! "snr")) tb)
                   (flag_indices "snr" 0 tb) T =
  Ok (map (fun r => match Spec.snr r with Some x => fgt x T | None => false end) tb).
Proof.
  intros Hall. unfold Np.array_gt_row0.
  rewrite flag_indices_length, length_map, Nat.eqb_refl
    by (eapply Forall_impl; [exact Hall | apply snr_has_flag]).
  assert (E : exists xs,
             mapM as_float (map (fun r => default PyNone (flags r !! "snr")) tb) = Some xs
             /\ map (fun x => fgt x T) xs
                = map (fun r => match Spec.snr r with
                                | Some x => fgt x T | None => false end) tb).
  { induction Hall as [|r tb [x Hx] _ (xs & IH1 & IH2)].
    - exists []. split; reflexivity.
    - exists (x :: xs). rewrite !map_cons, Hx, <- IH2.
      split; [|reflexivity].
      change (mapM ?f (?a :: ?l)) with (y ← f a; k ← mapM f l; mret (y :: k)).
      rewrite IH1. unfold Spec.snr in Hx.
      destruct (flags r !! "snr") as [v|]; [|discriminate].
      simpl. now rewrite Hx. }
  destruct E as (xs & E1 & E2).
  rewrite E1. simpl. now rewrite E2.
Qed.

(** C5.  On a TOA set whose records all carry a signal-to-noise
    attribute, the cut at threshold [T] succeeds and the active
    selection becomes exactly the records with [snr > T]: a record of
    the set is kept if and only if its ratio is strictly above [T], and
    a record whose ratio equals [T] is not in the selection. *)
Theorem apply_snr_cut_strict (T : F) (summary : bool) (t : TOAs F) :
  Forall (fun r => is_Some (Spec.snr r)) (table t) ->
  snd (apply_snr_cut T summary t) = Ok tt
  /\ table (fst (apply_snr_cut T summary t)) =
       List.filter (fun r => match Spec.snr r with
                             | Some x => fgt x T | None => false end) (table t)
  /\ (forall r x, In r (table t) -> Spec.snr r = Some x ->
        (In r (table (fst (apply_snr_cut T summary t))) <-> fgt x T = true))
  /\ (forall r, Spec.snr r = Some T ->
        ~ In r (table (fst (apply_snr_cut T summary t)))).
Proof.
  intros Hall.
  assert (E : apply_snr_cut T summary t =
    ({| table := List.filter (fun r => match Spec.snr r with
                                       | Some x => fgt x T | None => false end) (table t);
        table_selects := table t :: table_selects t;
        observatories := observatories t |}, Ok tt)).
  { unfold apply_snr_cut, get_flag_value.
    unfold bind at 1. unfold gets at 1.
    unfold bind at 1. unfold lift at 1. rewrite (snr_mask T _ Hall).
    rewrite summary_noop, select_run by now rewrite length_map.
    simpl. now rewrite compress_map_filter. }
  rewrite E. simpl. split; [reflexivity|]. split; [reflexivity|]. split.
  - intros r x Hin Hx. rewrite filter_In, Hx. tauto.
  - intros r Hr [_ Hgt]%filter_In. rewrite Hr in Hgt.
    unfold fgt in Hgt. now rewrite flt_irrefl in Hgt.
Qed.

End SnrCut.

(** On the sample set the cut at 8 keeps the record with ratio 12 only:
    the record whose ratio is 8 goes. *)
Lemma apply_snr_cut_strict_witness :
  Forall (fun r => is_Some (Spec.snr r)) (table Sample.three_toas)
  /\ table (fst (apply_snr_cut (inject_Z 8) false Sample.three_toas)) =
       List.filter (fun r => match Spec.snr r with
                             | Some x => fgt x (inject_Z 8) | None => false end)
                   (table Sample.three_toas)
  /\ ~ In (Sample.toa 58010 "ao" 8)
          (table (fst (apply_snr_cut (inject_Z 8) false Sample.three_toas))).
Proof.
  assert (Hall : Forall (fun r => is_Some (Spec.snr r)) (table Sample.three_toas)).
  { repeat (constructor; [eexists; reflexivity|]). constructor. }
  split; [exact Hall|]. split.
  - exact (proj1 (proj2 (apply_snr_cut_strict (inject_Z 8) false Sample.three_toas Hall))).
  - apply (proj2 (proj2 (proj2
             (apply_snr_cut_strict (inject_Z 8) false Sample.three_toas Hall)))).
    reflexivity.
Defined.

(** ** The time-window cut *)

Section MjdCut.
Context {F : Type} `{FloatOps F}.
Variables (d ig : gmap string (pyval F)).
Hypothesis Hignore : d !! "ignore" = Some (PyDict ig).


Lemma select_min_absent (v : pyval F) (t : TOAs F) :
  ig !! "mjd-start" = Some v -> truthy v = false ->
  select_min (PyDict d) t = (t, Ok (Np.all_true (length (table t)))).
Proof.
  intros Hv Hf. unfold select_min, len. run.
  rewrite Hignore. simpl. rewrite Hv. simpl. now rewrite Hf.
Qed.

Lemma select_min_bound (v : pyval F) (a : F) (t : TOAs F) :
  ig !! "mjd-start" = Some v -> truthy v = true -> as_float v = Some a ->
  select_min (PyDict d) t = (t, Ok (map (fun r => fgt (mjd r) a) (table t))).
Proof.
  intros Hv Ht Ha. unfold select_min, get_mjds, days. run.
  rewrite Hignore. simpl. rewrite Hv. simpl. rewrite Ht.
  rewrite ?Hignore. simpl. rewrite ?Hv. simpl. rewrite Ha.
  now rewrite map_map.
Qed.



Lemma select_max_absent (v : pyval F) (t : TOAs F) :
  ig !! "mjd-end" = Some v -> truthy v = false ->
  select_max (PyDict d) t = (t, Ok (Np.all_true (length (table t)))).
Proof.
  intros Hv Hf. unfold select_max, len. run.
  rewrite Hignore. simpl. rewrite Hv. simpl. now rewrite Hf.
Qed.

Lemma select_max_bound (v : pyval F) (b : F) (t : TOAs F) :
  ig !! "mjd-end" = Some v -> truthy v = true -> as_float v = Some b ->
  select_max (PyDict d) t = (t, Ok (map (fun r => flt (mjd r) b) (table t))).
Proof.
  intros Hv Ht Hb. unfold select_max, get_mjds, days. run.
  rewrite Hignore. simpl. rewrite Hv. simpl. rewrite Ht.
  rewrite ?Hignore. simpl. rewrite ?Hv. simpl. rewrite Hb.
  now rewrite map_map.
Qed.

(** A usable bound yields a mask as long as the table, and leaves the
    TOA set as it was. *)
Lemma select_min_usable (v : pyval F) (t : TOAs F) :
  ig !! "mjd-start" = Some v -> Spec.usable_bound v ->
  exists smin, select_min (PyDict d) t = (t, Ok smin)
               /\ length smin = length (table t)
               /\ (truthy v = false -> smin = Np.all_true (length (table t))).
Proof.
  intros Hv Hu. destruct (truthy v) eqn:Ht.
  - destruct Hu as [Hu|[a Ha]]; [congruence|].
    exists (map (fun r => fgt (mjd r) a) (table t)).
    rewrite (select_min_bound v a) by assumption.
    rewrite length_map. split; [reflexivity|]. split; [reflexivity|congruence].
  - exists (Np.all_true (length (table t))).
    rewrite (select_min_absent v) by assumption.
    unfold Np.all_true. rewrite length_replicate. split; [reflexivity|]. split; reflexivity.
Qed.

Lemma select_max_usable (v : pyval F) (t : TOAs F) :
  ig !! "mjd-end" = Some v -> Spec.usable_bound v ->
  exists smax, select_max (PyDict d) t = (t, Ok smax)
               /\ length smax = length (table t)
               /\ (truthy v = false -> smax = Np.all_true (length (table t))).
Proof.
  intros Hv Hu. destruct (truthy v) eqn:Ht.
  - destruct Hu as [Hu|[b Hb]]; [congruence|].
    exists (map (fun r => flt (mjd r) b) (table t)).
    rewrite (select_max_bound v b) by assumption.
    rewrite length_map. split; [reflexivity|]. split; [reflexivity|congruence].
  - exists (Np.all_true (length (table t))).
    rewrite (select_max_absent v) by assumption.
    unfold Np.all_true. rewrite length_replicate. split; [reflexivity|]. split; reflexivity.
Qed.

(** The cut, given what the two masks come out as. *)
Lemma apply_mjd_cut_run (summary : bool) (t : TOAs F) (smin smax : list bool) :
  select_min (PyDict d) t = (t, Ok smin) ->
  select_max (PyDict d) t = (t, Ok smax) ->
  length smin = length (table t) ->
  length smax = length (table t) ->
  apply_mjd_cut (PyDict d) summary t =
  ({| table := Np.compress (Np.logical_and smin smax) (table t);
      table_selects := table t :: table_selects t;
      observatories := observatories t |}, Ok tt).
Proof.
  intros Emin Emax Lmin Lmax. unfold apply_mjd_cut.
  unfold bind at 1. rewrite Emin.
  unfold bind at 1. rewrite Emax.
  rewrite summary_noop, select_run by now apply logical_and_length.
  reflexivity.
Qed.

End MjdCut.

Section MjdCutClaims.
Context {F : Type} `{FloatOps F}.

(** C1, as the code has it.  With both bounds supplied (truthy numbers
    [a] and [b] under [mjd-start] and [mjd-end]), the cut succeeds and
    the active selection becomes exactly the records with
    [a < t < b], both bounds exclusive: a record of the set is kept if
    and only if its timestamp is strictly inside the window, and no
    record with timestamp equal to [a] or to [b] remains. *)
Theorem apply_mjd_cut_window_exclusive
    (d ig : gmap string (pyval F)) (A B : pyval F) (a b : F)
    (summary : bool) (t : TOAs F) :
  d !! "ignore" = Some (PyDict ig) ->
  ig !! "mjd-start" = Some A -> ig !! "mjd-end" = Some B ->
  truthy A = true -> truthy B = true ->
  as_float A = Some a -> as_float B = Some b ->
  snd (apply_mjd_cut (PyDict d) summary t) = Ok tt
  /\ table (fst (apply_mjd_cut (PyDict d) summary t)) =
       List.filter (fun r => fgt (mjd r) a && flt (mjd r) b) (table t)
  /\ (forall r, In r (table (fst (apply_mjd_cut (PyDict d) summary t))) <->
                In r (table t) /\ flt a (mjd r) = true /\ flt (mjd r) b = true)
  /\ (forall r, In r (table (fst (apply_mjd_cut (PyDict d) summary t))) ->
                mjd r <> a /\ mjd r <> b).
Proof.
  intros Hd HA HB TA TB FA FB.
  rewrite (apply_mjd_cut_run d summary t
             (map (fun r => fgt (mjd r) a) (table t))
             (map (fun r => flt (mjd r) b) (table t)))
    by (try (now apply (select_min_bound d ig Hd A));
        try (now apply (select_max_bound d ig Hd B));
        apply length_map).
  simpl. rewrite logical_and_map, compress_map_filter.
  split; [reflexivity|]. split; [reflexivity|].
  assert (Hin : forall r,
             In r (List.filter (fun r => fgt (mjd r) a && flt (mjd r) b) (table t)) <->
             In r (table t) /\ flt a (mjd r) = true /\ flt (mjd r) b = true).
  { intros r. rewrite filter_In, andb_true_iff. unfold fgt. tauto. }
  split; [exact Hin|].
  intros r (_ & Ha & Hb)%Hin. split; intros E; rewrite E in *.
  - now rewrite flt_irrefl in Ha.
  - now rewrite flt_irrefl in Hb.
Qed.

(** The shape of the two masks and of the selection made with them. *)
Lemma apply_mjd_cut_masks_shape
    (d ig : gmap string (pyval F)) (vs ve : pyval F)
    (summary : bool) (t : TOAs F) :
  d !! "ignore" = Some (PyDict ig) ->
  ig !! "mjd-start" = Some vs -> ig !! "mjd-end" = Some ve ->
  Spec.usable_bound vs -> Spec.usable_bound ve ->
  exists smin smax : list bool,
    select_min (PyDict d) t = (t, Ok smin)
    /\ select_max (PyDict d) t = (t, Ok smax)
    /\ length smin = length (table t)
    /\ length smax = length (table t)
    /\ (truthy vs = false -> smin = Np.all_true (length (table t)))
    /\ (truthy ve = false -> smax = Np.all_true (length (table t)))
    /\ apply_mjd_cut (PyDict d) summary t = select (Np.logical_and smin smax) t
    /\ snd (apply_mjd_cut (PyDict d) summary t) = Ok tt
    /\ table_selects (fst (apply_mjd_cut (PyDict d) summary t)) =
         table t :: table_selects t
    /\ (truthy vs = false -> truthy ve = false ->
          Np.logical_and smin smax = Np.all_true (length (table t))
          /\ table (fst (apply_mjd_cut (PyDict d) summary t)) = table t).
Proof.
  intros Hd Hs He Us Ue.
  destruct (select_min_usable d ig Hd vs t Hs Us) as (smin & Emin & Lmin & Amin).
  destruct (select_max_usable d ig Hd ve t He Ue) as (smax & Emax & Lmax & Amax).
  exists smin, smax.
  rewrite (apply_mjd_cut_run d summary t smin smax Emin Emax Lmin Lmax).
  rewrite select_run by now apply logical_and_length.
  simpl. repeat (split; [assumption || reflexivity|]).
  intros Fs Fe. rewrite (Amin Fs), (Amax Fe).
  rewrite logical_and_true_l
    by (unfold Np.all_true; now rewrite length_replicate).
  split; [reflexivity | apply compress_all_true].
Qed.


End MjdCutClaims.

(** The sample set cut to the window from 58000 to 58020: only the
    record at 58010 is left. *)
Lemma sample_window_cut :
  apply_mjd_cut (Sample.window (PyInt 58000) (PyInt 58020)) false Sample.three_toas =
  ({| table := [Sample.toa 58010 "ao" 8];
      table_selects := [table Sample.three_toas];
      observatories := ["ao"; "gbt"] |}, Ok tt).
Proof. vm_compute. reflexivity. Qed.

(** C1 as stated fails: the record stamped 58000 lies in the closed
    window [58000, 58020], its timestamp equal to the lower bound, and
    yet it is not in the selection after the cut. *)
Lemma apply_mjd_cut_bounds_not_inclusive :
  exists r : TOA Q,
    In r (table Sample.three_toas)
    /\ Qle (inject_Z 58000) (mjd r) /\ Qle (mjd r) (inject_Z 58020)
    /\ mjd r = inject_Z 58000
    /\ ~ In r (table (fst (apply_mjd_cut (Sample.window (PyInt 58000) (PyInt 58020))
                                         false Sample.three_toas))).
Proof.
  exists (Sample.toa 58000 "ao" 5).
  split; [left; reflexivity|].
  split; [unfold Qle; simpl; lia|].
  split; [unfold Qle; simpl; lia|].
  split; [reflexivity|].
  rewrite sample_window_cut. simpl. intros [E|[]].
  apply (f_equal mjd) in E. discriminate E.
Qed.

Lemma apply_mjd_cut_window_exclusive_witness :
  snd (apply_mjd_cut (Sample.window (PyInt 58000) (PyInt 58020)) false
         Sample.three_toas) = Ok tt
  /\ table (fst (apply_mjd_cut (Sample.window (PyInt 58000) (PyInt 58020)) false
                   Sample.three_toas)) =
       List.filter (fun r => fgt (mjd r) (inject_Z 58000) && flt (mjd r) (inject_Z 58020))
                   (table Sample.three_toas).
Proof.
  pose proof (apply_mjd_cut_window_exclusive
                (Sample.window_dict (PyInt 58000) (PyInt 58020))
                (Sample.window_ignore (PyInt 58000) (PyInt 58020))
                (PyInt 58000) (PyInt 58020) (inject_Z 58000) (inject_Z 58020)
                false Sample.three_toas
                eq_refl eq_refl eq_refl eq_refl eq_refl eq_refl eq_refl) as W.
  exact (conj (proj1 W) (proj1 (proj2 W))).
Defined.


(** ** The epoch normaliser *)

Section CenterEpochs.
Context {F : Type} `{FloatOps F}.

Lemma call_run {A} (r : ref) (meth : M (TimingModel F) A)
    (h : gmap ref (TimingModel F)) (m : TimingModel F) :
  h !! r = Some m ->
  call r meth h = (<[r := fst (meth m)]> h, snd (meth m)).
Proof. intros Hm. unfold call. rewrite Hm. now destruct (meth m). Qed.

(** A non-empty column has a maximum and a minimum. *)
Lemma amax_amin_defined (a : list F) :
  a <> [] -> exists hi lo, Np.amax a = Ok hi /\ Np.amin a = Ok lo.
Proof. destruct a as [|x a]; [congruence | intros _; simpl; eauto]. Qed.

(** What the function does, whatever the three methods are: the first
    update decides the outcome, the other two only leave their
    mutations. *)
Lemma center_epochs_with_run
    (cp cpos cdm : F -> M (TimingModel F) unit)
    (l : ref) (t : TOAs F) (h : gmap ref (TimingModel F)) (m : TimingModel F)
    (hi lo : F) :
  h !! l = Some m ->
  Np.amax (map mjd (table t)) = Ok hi ->
  Np.amin (map mjd (table t)) = Ok lo ->
  center_epochs_with cp cpos cdm l t h =
  match cp (fhalf (fadd hi lo)) m with
  | (m1, Raise e) => (<[l := m1]> h, Raise e)
  | (m1, Ok _) =>
      (<[l := fst (cdm (fhalf (fadd hi lo)) (fst (cpos (fhalf (fadd hi lo)) m1)))]> h,
       Ok l)
  end.
Proof.
  intros Hm Hhi Hlo. unfold center_epochs_with.
  rewrite Hhi, Hlo. unfold lift, bind at 1 2.
  set (mid := fhalf (fadd hi lo)).
  unfold bind at 1. rewrite (call_run l _ h m Hm).
  destruct (cp mid m) as [m1 [[]|e]]; simpl; [|reflexivity].
  unfold bind at 1. unfold try_except_pass at 1.
  rewrite (call_run l _ _ m1) by apply lookup_insert_eq.
  rewrite insert_insert_eq.
  unfold bind at 1. unfold try_except_pass at 1.
  rewrite (call_run l _ _ (fst (cpos mid m1))) by apply lookup_insert_eq.
  rewrite insert_insert_eq. reflexivity.
Qed.

(** C9.  Whatever the position-epoch and the dispersion-measure-epoch
    updates do, and whichever exception they raise, [center_epochs]
    returns the model normally as soon as the primary update went
    through; an exception of the primary update is the one thing (past
    the computation of the midpoint) that reaches the caller. *)
Theorem center_epochs_swallows_optional_failures
    (cp cpos cdm : F -> M (TimingModel F) unit)
    (l : ref) (t : TOAs F) (h : gmap ref (TimingModel F)) (m : TimingModel F)
    (hi lo : F) :
  h !! l = Some m ->
  Np.amax (map mjd (table t)) = Ok hi ->
  Np.amin (map mjd (table t)) = Ok lo ->
  (forall m1, cp (fhalf (fadd hi lo)) m = (m1, Ok tt) ->
     snd (center_epochs_with cp cpos cdm l t h) = Ok l)
  /\ (forall m1 e, cp (fhalf (fadd hi lo)) m = (m1, Raise e) ->
     snd (center_epochs_with cp cpos cdm l t h) = Raise e)
  /\ (forall e, snd (center_epochs_with cp cpos cdm l t h) = Raise e ->
     exists m1, cp (fhalf (fadd hi lo)) m = (m1, Raise e)).
Proof.
  intros Hm Hhi Hlo.
  rewrite (center_epochs_with_run cp cpos cdm l t h m hi lo Hm Hhi Hlo).
  split; [|split].
  - intros m1 E. now rewrite E.
  - intros m1 e E. now rewrite E.
  - intros e. destruct (cp (fhalf (fadd hi lo)) m) as [m1 [[]|e']]; simpl;
      intros E; [discriminate E|].
    injection E as ->. now exists m1.
Qed.

(** The epochs after the call, in terms of what the two reductions
    return. *)
Lemma center_epochs_sets_epochs
    (l : ref) (t : TOAs F) (h : gmap ref (TimingModel F)) (m : TimingModel F) :
  h !! l = Some m ->
  is_Some (PEPOCH m) ->
  table t <> [] ->
  exists (tmin tmax : F) (m' : TimingModel F),
    Np.amin (map mjd (table t)) = Ok tmin
    /\ Np.amax (map mjd (table t)) = Ok tmax
    /\ center_epochs l t h = (<[l := m']> h, Ok l)
    /\ PEPOCH m' = Some (fhalf (fadd tmin tmax))
    /\ POSEPOCH m' = match POSEPOCH m with
                     | Some _ => Some (fhalf (fadd tmin tmax))
                     | None => None
                     end
    /\ DMEPOCH m' = match DMEPOCH m with
                    | Some _ => Some (fhalf (fadd tmin tmax))
                    | None => None
                    end
    /\ PSR m' = PSR m.
Proof.
  intros Hm [p Hp] Hne.
  destruct (amax_amin_defined (map mjd (table t))) as (hi & lo & Hhi & Hlo).
  { destruct (table t); [congruence | discriminate]. }
  exists lo, hi. eexists. split; [exact Hlo|]. split; [exact Hhi|].
  unfold center_epochs.
  rewrite (center_epochs_with_run _ _ _ l t h m hi lo Hm Hhi Hlo).
  rewrite (fadd_comm lo hi).
  unfold change_pepoch at 1. run. rewrite Hp. simpl.
  split; [reflexivity|].
  destruct m as [psr pe [pos|] [dm|]]; simpl; repeat split; reflexivity.
Qed.

End CenterEpochs.

(** The sample model, behind reference 1, normalised over the sample
    set, with a position-epoch update that raises [TypeError] and a
    dispersion-measure-epoch update that raises [IndexError]: neither
    is a missing field, and the call still returns the reference. *)
Lemma center_epochs_swallows_optional_failures_witness :
  snd (center_epochs_with change_pepoch
         (fun _ => raise TypeError) (fun _ => raise IndexError)
         1%positive Sample.three_toas {[ 1%positive := Sample.bare_model ]})
  = Ok 1%positive.
Proof.
  refine (proj1 (center_epochs_swallows_optional_failures
                   change_pepoch (fun _ => raise TypeError) (fun _ => raise IndexError)
                   1%positive Sample.three_toas {[ 1%positive := Sample.bare_model ]}
                   Sample.bare_model (inject_Z 58020) (inject_Z 58000)
                   eq_refl eq_refl eq_refl) _ eq_refl).
Defined.

(** ** The residual plotter *)

Section PlotRes.
Context {F : Type} `{FloatOps F}.

(** C10.  With no observatory recorded on the fitter's TOA set the loop
    body never runs: [plot_res] returns normally for every mode string,
    recognised or not, and leaves the TOA set (table and selection
    stack) and the figure exactly as they were. *)
Theorem plot_res_no_observatories (restype : string) (s : Scene F) :
  observatories (toas (fit s)) = [] ->
  plot_res restype s = (s, Ok tt).
Proof.
  intros Hobs. unfold plot_res. unfold bind at 1. unfold gets at 1.
  rewrite Hobs. reflexivity.
Qed.

(** An unrecognised mode on a set with at least one observatory: the
    exception leaves [plot_res] in the first round of the loop, after
    the selection of that site's records and before anything is drawn
    or unselected. *)
Lemma plot_res_unrecognised (restype obso : string) (rest : list string) (s : Scene F) :
  contains "pre" restype = false ->
  contains "post" restype = false ->
  observatories (toas (fit s)) = obso :: rest ->
  plot_res restype s =
  ({| fit := with_toas
               {| table := List.filter (fun r => String.eqb (obs r) obso)
                                       (table (toas (fit s)));
                  table_selects := table (toas (fit s)) :: table_selects (toas (fit s));
                  observatories := obso :: rest |}
               (fit s);
      figure := figure s |},
   Raise (ValueError ("Residual type (" +:+ restype +:+
                      ") not recognized. Try prefit/postfit."))).
Proof.
  intros Hpre Hpost Hobs. unfold plot_res.
  unfold bind at 1. unfold gets at 1. rewrite Hobs.
  cbn [for_in]. unfold bind at 1.
  unfold bind at 1. unfold on_toas at 1, zoom, get_obss, gets.
  unfold bind at 1. unfold on_toas at 1, zoom.
  rewrite select_run by now rewrite !length_map.
  rewrite Hpre, Hpost. unfold bind at 1. unfold raise.
  cbn [table table_selects observatories toas fit figure with_toas].
  rewrite map_map, compress_map_filter, Hobs. reflexivity.
Qed.

(** On the success path every round ends with the selection as it
    found it: a recognised mode, with residuals of the table's length,
    leaves the fitter unchanged and only adds to the figure. *)
Lemma plot_res_recognised_restores (restype : string) (s : Scene F) :
  (contains "pre" restype = true
   /\ length (resids_init (fit s)) = length (table (toas (fit s))))
  \/ (contains "pre" restype = false /\ contains "post" restype = true
      /\ length (resids (fit s)) = length (table (toas (fit s)))) ->
  exists fig, plot_res restype s = ({| fit := fit s; figure := fig |}, Ok tt).
Proof.
  intros Hmode. unfold plot_res. unfold bind at 1. unfold gets at 1.
  remember (observatories (toas (fit s))) as l eqn:El. clear El.
  match goal with |- context [for_in l ?b] => set (body := b) end.
  revert s Hmode. induction l as [|obso l IH]; intros s Hmode.
  - exists (figure s). destruct s; reflexivity.
  - cbn [for_in]. unfold bind at 1. unfold body at 1.
    destruct s as [[[tb st ob] m ri rf] fig].
    cbn [fit toas table resids_init resids] in Hmode.
    unfold on_toas, zoom, get_obss, get_mjds, get_errors, select, unselect, plt.
    run. unfold Np.index_mask. rewrite !length_map, Nat.eqb_refl. simpl.
    destruct Hmode as [[Hpre Hlen]|(Hpre & Hpost & Hlen)];
      rewrite Hpre, ?Hpost; simpl;
      rewrite !length_map, Hlen, Nat.eqb_refl; simpl;
      unfold with_toas; simpl;
      match goal with
      | |- context [for_in l body ?s'] => destruct (IH s') as [fig' E]
      end;
      try (simpl; tauto);
      eexists; simpl in E; rewrite E; reflexivity.
Qed.

End PlotRes.

(** The sample fitter has no observatory once its TOA set is empty;
    the mode [foo] is then accepted silently. *)
Lemma plot_res_no_observatories_witness :
  plot_res "foo" (Sample.scene_of Sample.no_toas) =
  (Sample.scene_of Sample.no_toas, Ok tt).
Proof.
  apply (plot_res_no_observatories "foo" (Sample.scene_of Sample.no_toas)).
  reflexivity.
Defined.

(** C2, on the sample fitter with the mode [foo].  The call raises the
    [ValueError] and draws nothing, but the TOA set is left narrowed to
    the records of the first site, with the full table still on the
    selection stack: the selection is not restored. *)
Theorem plot_res_failure_keeps_selection :
  snd (plot_res "foo" (Sample.scene_of Sample.three_toas)) =
    Raise (ValueError "Residual type (foo) not recognized. Try prefit/postfit.")
  /\ figure (fst (plot_res "foo" (Sample.scene_of Sample.three_toas))) = []
  /\ table (toas (fit (fst (plot_res "foo" (Sample.scene_of Sample.three_toas))))) =
       [Sample.toa 58000 "ao" 5; Sample.toa 58010 "ao" 8]
  /\ table_selects (toas (fit (fst (plot_res "foo" (Sample.scene_of Sample.three_toas))))) =
       [table Sample.three_toas]
  /\ table (toas (fit (fst (plot_res "foo" (Sample.scene_of Sample.three_toas))))) <>
       table Sample.three_toas.
Proof.
  rewrite (plot_res_unrecognised "foo" "ao" ["gbt"]) by reflexivity.
  repeat (split; [reflexivity|]). discriminate.
Qed.

(** ** The reductions on the rational instance

    On the rationals the abstract [max] and [min] reductions are the
    greatest and the least element of the column, so that the midpoint
    of [center_epochs] is the one of the observed time span. *)

Lemma Qltb_true (x y : Q) : Qltb x y = true -> Qle x y.
Proof. unfold Qltb, Qle. intros E%Z.ltb_lt. lia. Qed.

Lemma Qltb_false (x y : Q) : Qltb x y = false -> Qle y x.
Proof. unfold Qltb, Qle. intros E%Z.ltb_ge. lia. Qed.

Lemma fold_left_fmaximum_Q (a : list Q) (x : Q) :
  (fold_left fmaximum a x = x \/ In (fold_left fmaximum a x) a)
  /\ Qle x (fold_left fmaximum a x)
  /\ Forall (fun y => Qle y (fold_left fmaximum a x)) a.
Proof.
  revert x. induction a as [|y a IH]; intros x; cbn [fold_left].
  - split; [now left|]. split; [apply Qle_refl | constructor].
  - change (fmaximum x y) with (if Qltb x y then y else x).
    destruct (Qltb x y) eqn:E;
      [destruct (IH y) as (Hin & Hle & Hall) | destruct (IH x) as (Hin & Hle & Hall)].
    + split; [right; destruct Hin as [->|Hin]; [now left | now right]|].
      split; [eapply Qle_trans; [apply (Qltb_true _ _ E) | exact Hle]|].
      constructor; assumption.
    + split; [destruct Hin as [->|Hin]; [now left | right; now right]|].
      split; [exact Hle|].
      constructor; [|assumption].
      eapply Qle_trans; [apply (Qltb_false _ _ E) | exact Hle].
Qed.

Lemma fold_left_fminimum_Q (a : list Q) (x : Q) :
  (fold_left fminimum a x = x \/ In (fold_left fminimum a x) a)
  /\ Qle (fold_left fminimum a x) x
  /\ Forall (fun y => Qle (fold_left fminimum a x) y) a.
Proof.
  revert x. induction a as [|y a IH]; intros x; cbn [fold_left].
  - split; [now left|]. split; [apply Qle_refl | constructor].
  - change (fminimum x y) with (if Qltb y x then y else x).
    destruct (Qltb y x) eqn:E;
      [destruct (IH y) as (Hin & Hle & Hall) | destruct (IH x) as (Hin & Hle & Hall)].
    + split; [right; destruct Hin as [->|Hin]; [now left | now right]|].
      split; [eapply Qle_trans; [exact Hle | apply (Qltb_true _ _ E)]|].
      constructor; assumption.
    + split; [destruct Hin as [->|Hin]; [now left | right; now right]|].
      split; [exact Hle|].
      constructor; [|assumption].
      eapply Qle_trans; [exact Hle | apply (Qltb_false _ _ E)].
Qed.

Lemma amax_Q_greatest (a : list Q) (hi : Q) :
  Np.amax a = Ok hi -> In hi a /\ Forall (fun y => Qle y hi) a.
Proof.
  destruct a as [|x a]; [discriminate|]. unfold Np.amax, Np.amin. intros [= <-].
  change (fun x0 y : Q => if Qltb x0 y then y else x0) with (@fmaximum Q Q_float).
  destruct (fold_left_fmaximum_Q a x) as (Hin & Hle & Hall).
  split; [destruct Hin as [->|Hin]; [now left | now right]|].
  constructor; assumption.
Qed.

Lemma amin_Q_least (a : list Q) (lo : Q) :
  Np.amin a = Ok lo -> In lo a /\ Forall (fun y => Qle lo y) a.
Proof.
  destruct a as [|x a]; [discriminate|]. unfold Np.amax, Np.amin. intros [= <-].
  change (fun x0 y : Q => if Qltb y x0 then y else x0) with (@fminimum Q Q_float).
  destruct (fold_left_fminimum_Q a x) as (Hin & Hle & Hall).
  split; [destruct Hin as [->|Hin]; [now left | now right]|].
  constructor; assumption.
Qed.

(** A model that has all three epochs gets all three moved to the
    midpoint of the sample set. *)
Example center_epochs_full_model :
  exists m' : TimingModel Q,
    center_epochs 1%positive Sample.three_toas {[ 1%positive := Sample.full_model ]}
    = (<[1%positive := m']> {[ 1%positive := Sample.full_model ]}, Ok 1%positive)
    /\ In (inject_Z 58000) (map mjd (table Sample.three_toas))
    /\ In (inject_Z 58020) (map mjd (table Sample.three_toas))
    /\ PEPOCH m' = Some (Qdiv (Qplus (inject_Z 58020) (inject_Z 58000)) (2 # 1))
    /\ POSEPOCH m' = PEPOCH m'
    /\ DMEPOCH m' = PEPOCH m'.
Proof.
  eexists. split; [vm_compute; reflexivity|].
  split; [now left|]. split; [right; right; now left|].
  repeat split.
Qed.

(** * Further properties of the code *)

(** ** Strings, continued *)

Lemma str_app_same_length (a b t u : string) :
  String.length t = String.length u -> a +:+ t = b +:+ u -> t = u.
Proof.
  revert b. induction a as [|x a IH]; intros [|y b] Hlen E.
  - exact E.
  - apply (f_equal String.length) in E.
    change (EmptyString +:+ t) with t in E.
    rewrite str_app_length in E. simpl in E. lia.
  - apply (f_equal String.length) in E.
    change (EmptyString +:+ u) with u in E.
    rewrite str_app_length in E. simpl in E. lia.
  - rewrite !str_app_cons in E. injection E as _ E. now apply (IH b).
Qed.

Lemma prefix_app (sub rest : string) : String.prefix sub (sub +:+ rest) = true.
Proof.
  induction sub as [|c sub IH]; [now destruct rest|].
  rewrite str_app_cons. simpl.
  destruct (Ascii.ascii_dec c c) as [_|Hne]; [exact IH | congruence].
Qed.

Lemma prefix_split (sub s : string) :
  String.prefix sub s = true -> exists rest, s = sub +:+ rest.
Proof.
  revert s. induction sub as [|c sub IH]; intros s Hp.
  - now exists s.
  - destruct s as [|c' s]; [discriminate|]. simpl in Hp.
    destruct (Ascii.ascii_dec c c') as [<-|]; [|discriminate].
    destruct (IH s Hp) as [rest ->]. now exists rest.
Qed.

Lemma contains_unfold (sub s : string) :
  contains sub s =
  String.prefix sub s ||
  match s with
  | EmptyString => false
  | String _ s' => contains sub s'
  end.
Proof. destruct s; reflexivity. Qed.

(** [contains] is Python's substring test. *)
Lemma contains_spec (sub s : string) :
  contains sub s = true <-> exists before after, s = before +:+ sub +:+ after.
Proof.
  split.
  - induction s as [|c s IH]; rewrite contains_unfold; intros Hc.
    + rewrite orb_false_r in Hc. apply prefix_split in Hc as [rest ->].
      now exists EmptyString, rest.
    + apply orb_true_iff in Hc as [Hp|Hc].
      * apply prefix_split in Hp as [rest ->]. now exists EmptyString, rest.
      * destruct (IH Hc) as (before & after & ->).
        now exists (String c before), after.
  - intros (before & after & ->).
    induction before as [|c before IH]; rewrite contains_unfold.
    + change (EmptyString +:+ sub +:+ after) with (sub +:+ after).
      now rewrite prefix_app.
    + rewrite str_app_cons, IH. apply orb_true_r.
Qed.

(** ** The manifest writer, continued *)

(** X1.  Writing a manifest replaces whatever manifest of that source
    was written before, leaves every other file of the directory as it
    was, and for an empty list of names leaves an empty file. *)
Theorem write_include_tim_replaces
    (source : string) (l l' : list string) (fs : gmap string string) :
  fst (write_include_tim source l (fst (write_include_tim source l' fs))) =
    fst (write_include_tim source l fs)
  /\ delete (source +:+ ".tim") (fst (write_include_tim source l fs)) =
       delete (source +:+ ".tim") fs
  /\ fst (write_include_tim source [] fs) !! (source +:+ ".tim") = Some EmptyString.
Proof.
  rewrite !write_include_tim_run. simpl. split; [|split].
  - apply insert_insert_eq.
  - apply delete_insert_eq.
  - apply lookup_insert_eq.
Qed.

(** X2.  A manifest of names that hold no newline character reads back,
    split at newlines, as exactly one line [INCLUDE <name>] per name, in
    the order of the names. *)
Theorem write_include_tim_lines
    (source : string) (tim_file_list : list string) (fs : gmap string string) :
  Forall (fun tf => Spec.has_newline tf = false) tim_file_list ->
  exists content,
    fst (write_include_tim source tim_file_list fs) !! (source +:+ ".tim") = Some content
    /\ Spec.split_lines content = map (fun tf => "INCLUDE " +:+ tf) tim_file_list.
Proof.
  intros Hall.
  destruct (write_include_tim_read_back source tim_file_list fs Hall)
    as (content & Hc & Hl & _).
  now exists content.
Qed.

Lemma write_include_tim_lines_witness :
  exists content,
    fst (write_include_tim "J0000+0000" ["./tim/a.tim"; "./tim/b.tim"] ∅)
      !! ("J0000+0000" +:+ ".tim") = Some content
    /\ Spec.split_lines content = ["INCLUDE ./tim/a.tim"; "INCLUDE ./tim/b.tim"].
Proof.
  apply (write_include_tim_lines "J0000+0000" ["./tim/a.tim"; "./tim/b.tim"] ∅).
  repeat constructor.
Defined.

(** ** The model writer, continued *)

Section WriteParFrame.
Context {F : Type} `{FloatOps F}.
Variable as_parfile : TimingModel F -> string.
Variable today : string.

Lemma par_name_not_tim (source date addext other : string) :
  source +:+ "_PINT_" +:+ date +:+ addext +:+ ".par" <> other +:+ ".tim".
Proof.
  rewrite <- !str_app_assoc. intros E.
  apply str_app_same_length in E; [discriminate E | reflexivity].
Qed.

(** X3.  [write_par] never touches a TOA manifest: whatever the source
    name, date and suffix, the file it writes is not named
    [<anything>.tim], so every manifest in the directory reads the same
    before and after. *)
Theorem write_par_spares_manifests
    (fitter : Fitter F) (addext other : string) (fs : gmap string string) :
  fst (write_par as_parfile today fitter addext fs) !! (other +:+ ".tim") =
  fs !! (other +:+ ".tim").
Proof.
  rewrite write_par_run. simpl.
  apply lookup_insert_ne, par_name_not_tim.
Qed.

End WriteParFrame.

(** ** The cuts, continued *)



Lemma compress_sublist {A} (mask : list bool) (xs : list A) :
  Np.compress mask xs `sublist_of` xs.
Proof.
  revert mask. induction xs as [|x xs IH]; intros [|[] mask]; simpl;
    try apply sublist_nil_l.
  - apply sublist_skip, IH.
  - apply sublist_cons, IH.
Qed.

(** Reading computations leave the state alone, and so do their
    sequences. *)
Lemma bind_reads {S A B} (c : M S A) (k : A -> M S B) :
  (forall s, fst (c s) = s) -> (forall a s, fst (k a s) = s) ->
  forall s, fst (bind c k s) = s.
Proof.
  intros Hc Hk s. unfold bind. specialize (Hc s).
  destruct (c s) as [s' [a|e]]; simpl in *; subst; [apply Hk | reflexivity].
Qed.

Section Cuts.
Context {F : Type} `{FloatOps F}.

Ltac reads :=
  repeat first
    [ apply bind_reads; [intros ?|intros ? ?]
    | match goal with |- fst ((if ?b then _ else _) _) = _ => destruct b end
    | reflexivity ].

Lemma select_min_reads (cfg : pyval F) (t : TOAs F) : fst (select_min cfg t) = t.
Proof. revert t. unfold select_min, get_mjds, len. reads. Qed.

Lemma select_max_reads (cfg : pyval F) (t : TOAs F) : fst (select_max cfg t) = t.
Proof. revert t. unfold select_max, get_mjds, len. reads. Qed.

(** Whatever the mask, a selection keeps a sublist of the table and
    keeps the table it found on top of the stack. *)
Lemma select_narrows (mask : list bool) (t : TOAs F) :
  table (fst (select mask t)) `sublist_of` table t
  /\ table_selects (fst (select mask t)) = table t :: table_selects t
  /\ observatories (fst (select mask t)) = observatories t.
Proof.
  unfold select. run. unfold Np.index_mask.
  destruct (length mask =? length (table t))%nat; simpl.
  - split; [apply compress_sublist | split; reflexivity].
  - split; [reflexivity | split; reflexivity].
Qed.

Lemma summary_keeps {A} (c : M (TOAs F) A) (summary : bool) (t : TOAs F) :
  fst ((c ;;; if summary then print_summary else ret tt) t) = fst (c t).
Proof. now rewrite summary_noop. Qed.

(** A cut either raises before it selects anything, or is one
    selection. *)
Lemma apply_mjd_cut_cases (cfg : pyval F) (summary : bool) (t : TOAs F) :
  (exists e, apply_mjd_cut cfg summary t = (t, Raise e))
  \/ exists mask,
       fst (apply_mjd_cut cfg summary t) = fst (select mask t).
Proof.
  pose proof (select_min_reads cfg t) as Rmin.
  pose proof (select_max_reads cfg t) as Rmax.
  destruct (select_min cfg t) as [t1 [smin|e]] eqn:Emin; simpl in Rmin; subst t1.
  - destruct (select_max cfg t) as [t1 [smax|e]] eqn:Emax; simpl in Rmax; subst t1.
    + right. exists (Np.logical_and smin smax).
      unfold apply_mjd_cut. unfold bind at 1. rewrite Emin.
      unfold bind at 1. rewrite Emax. apply summary_keeps.
    + left. exists e. unfold apply_mjd_cut. unfold bind at 1. rewrite Emin.
      unfold bind at 1. now rewrite Emax.
  - left. exists e. unfold apply_mjd_cut. unfold bind at 1. now rewrite Emin.
Qed.

Lemma apply_snr_cut_cases (T : F) (summary : bool) (t : TOAs F) :
  (exists e, apply_snr_cut T summary t = (t, Raise e))
  \/ exists mask,
       fst (apply_snr_cut T summary t) = fst (select mask t).
Proof.
  destruct (Np.array_gt_row0
              (map (fun r => default PyNone (flags r !! "snr")) (table t))
              (flag_indices "snr" 0 (table t)) T) as [mask|e] eqn:E.
  - right. exists mask. unfold apply_snr_cut, get_flag_value.
    unfold bind at 1. unfold gets at 1.
    unfold bind at 1. unfold lift at 1. rewrite E.
    apply summary_keeps.
  - left. exists e. unfold apply_snr_cut, get_flag_value.
    unfold bind at 1. unfold gets at 1.
    unfold bind at 1. unfold lift at 1. now rewrite E.
Qed.

Lemma narrowed_or_same {A} (t : TOAs F) (out : TOAs F * result A) :
  (exists e, out = (t, Raise e)) \/ (exists mask, fst out = fst (select mask t)) ->
  table (fst out) `sublist_of` table t
  /\ (table_selects (fst out) = table_selects t
      \/ table_selects (fst out) = table t :: table_selects t)
  /\ observatories (fst out) = observatories t.
Proof.
  intros [[e ->]|[mask ->]].
  - split; [reflexivity | split; [left; reflexivity | reflexivity]].
  - destruct (select_narrows mask t) as (Hs & Hst & Hobs).
    split; [exact Hs | split; [right; exact Hst | exact Hobs]].
Qed.

(** Undoing a selection gives back the TOA set as it was, whatever the
    mask. *)
Lemma unselect_select (mask : list bool) (t : TOAs F) :
  unselect (fst (select mask t)) = (t, Ok tt).
Proof.
  unfold select, unselect. run. unfold Np.index_mask.
  destruct (length mask =? length (table t))%nat; simpl; now destruct t.
Qed.

(** X4.  For every configuration value and every TOA set, whether the
    time-window cut succeeds or raises, it never adds, reorders or
    replaces records: the active table afterwards is a sublist of the
    one before.  The table it found is not lost either: the selection
    stack is untouched or has that table pushed on top.  The recorded
    observatories stay. *)
Theorem apply_mjd_cut_only_narrows (cfg : pyval F) (summary : bool) (t : TOAs F) :
  table (fst (apply_mjd_cut cfg summary t)) `sublist_of` table t
  /\ (table_selects (fst (apply_mjd_cut cfg summary t)) = table_selects t
      \/ table_selects (fst (apply_mjd_cut cfg summary t)) = table t :: table_selects t)
  /\ observatories (fst (apply_mjd_cut cfg summary t)) = observatories t.
Proof. apply narrowed_or_same, apply_mjd_cut_cases. Qed.

(** X5.  The same holds of the signal-to-noise cut, on every TOA set and
    for every threshold. *)
Theorem apply_snr_cut_only_narrows (T : F) (summary : bool) (t : TOAs F) :
  table (fst (apply_snr_cut T summary t)) `sublist_of` table t
  /\ (table_selects (fst (apply_snr_cut T summary t)) = table_selects t
      \/ table_selects (fst (apply_snr_cut T summary t)) = table t :: table_selects t)
  /\ observatories (fst (apply_snr_cut T summary t)) = observatories t.
Proof. apply narrowed_or_same, apply_snr_cut_cases. Qed.

(** X6.  A cut that returned normally is undone by one [unselect]: the
    TOA set is then exactly what it was before the cut, table, stack
    and observatories. *)
Theorem cut_then_unselect_restores
    (cfg : pyval F) (T : F) (summary : bool) (t : TOAs F) :
  (snd (apply_mjd_cut cfg summary t) = Ok tt ->
   unselect (fst (apply_mjd_cut cfg summary t)) = (t, Ok tt))
  /\ (snd (apply_snr_cut T summary t) = Ok tt ->
      unselect (fst (apply_snr_cut T summary t)) = (t, Ok tt)).
Proof.
  split; intros Hok.
  - destruct (apply_mjd_cut_cases cfg summary t) as [[e E]|[mask E]].
    + rewrite E in Hok. discriminate Hok.
    + rewrite E. apply unselect_select.
  - destruct (apply_snr_cut_cases T summary t) as [[e E]|[mask E]].
    + rewrite E in Hok. discriminate Hok.
    + rewrite E. apply unselect_select.
Qed.

(** The masks of usable bounds are the record-wise tests. *)
Lemma all_true_map {A} (f : A -> bool) (xs : list A) :
  (forall x, f x = true) -> Np.all_true (length xs) = map f xs.
Proof.
  intros Hf. unfold Np.all_true.
  induction xs as [|x xs IH]; simpl; [reflexivity|]. now rewrite Hf, IH.
Qed.

Lemma select_min_mask (d ig : gmap string (pyval F)) (vs : pyval F) (t : TOAs F) :
  d !! "ignore" = Some (PyDict ig) -> ig !! "mjd-start" = Some vs ->
  Spec.usable_bound vs ->
  select_min (PyDict d) t = (t, Ok (map (Spec.above vs) (table t))).
Proof.
  intros Hd Hs Us. unfold Spec.above. destruct (truthy vs) eqn:Ts.
  - destruct Us as [Us|[a Fa]]; [congruence|]. rewrite Fa.
    now apply (select_min_bound d ig Hd vs a).
  - rewrite (select_min_absent d ig Hd vs t Hs Ts).
    now rewrite (all_true_map (fun _ => true)).
Qed.

Lemma select_max_mask (d ig : gmap string (pyval F)) (ve : pyval F) (t : TOAs F) :
  d !! "ignore" = Some (PyDict ig) -> ig !! "mjd-end" = Some ve ->
  Spec.usable_bound ve ->
  select_max (PyDict d) t = (t, Ok (map (Spec.below ve) (table t))).
Proof.
  intros Hd He Ue. unfold Spec.below. destruct (truthy ve) eqn:Te.
  - destruct Ue as [Ue|[b Fb]]; [congruence|]. rewrite Fb.
    now apply (select_max_bound d ig Hd ve b).
  - rewrite (select_max_absent d ig Hd ve t He Te).
    now rewrite (all_true_map (fun _ => true)).
Qed.






(** X9.  When some record of the active table carries no [snr]
    attribute, the signal-to-noise cut raises and selects nothing: the
    TOA set is exactly as before. *)
Theorem apply_snr_cut_missing_attribute (T : F) (summary : bool) (t : TOAs F) :
  Exists (fun r => flags r !! "snr" = None) (table t) ->
  exists e, apply_snr_cut T summary t = (t, Raise e).
Proof.
  intros Hex.
  assert (Hle : forall (tb : list (TOA F)) i,
             length (flag_indices "snr" i tb) <= length tb).
  { induction tb as [|r tb IH]; intros i; simpl; [lia|].
    destruct (flags r !! "snr"); simpl; specialize (IH (S i)); lia. }
  assert (Hlt : forall tb i,
             Exists (fun r : TOA F => flags r !! "snr" = None) tb ->
             length (flag_indices "snr" i tb) < length tb).
  { intros tb i Htb. revert i.
    induction Htb as [r tb Hr|r tb _ IH]; intros i; simpl.
    - rewrite Hr. specialize (Hle tb (S i)). lia.
    - destruct (flags r !! "snr"); simpl; specialize (IH (S i)); lia. }
  exists TypeError. unfold apply_snr_cut, get_flag_value.
  unfold bind at 1. unfold gets at 1.
  unfold bind at 1. unfold lift at 1. unfold Np.array_gt_row0.
  rewrite length_map.
  specialize (Hlt (table t) 0 Hex).
  destruct (Nat.eqb_spec (length (flag_indices "snr" 0 (table t))) (length (table t)));
    [lia | reflexivity].
Qed.

(** X10.  When [ignore] is there but is no mapping (as an [ignore:]
    line without entries gives [None]), the time-window cut raises
    [TypeError] and selects nothing. *)
Theorem apply_mjd_cut_ignore_not_mapping
    (d : gmap string (pyval F)) (v : pyval F) (summary : bool) (t : TOAs F) :
  d !! "ignore" = Some v ->
  (forall ig, v <> PyDict ig) ->
  apply_mjd_cut (PyDict d) summary t = (t, Raise TypeError).
Proof.
  intros Hd Hv. unfold apply_mjd_cut, select_min. run. rewrite Hd.
  destruct v; try reflexivity. now destruct (Hv d0).
Qed.

End Cuts.

(** ** The epoch normaliser, continued *)

Section CenterEpochsMore.
Context {F : Type} `{FloatOps F}.
Variables cp cpos cdm : F -> M (TimingModel F) unit.

(** X11.  On a TOA set without records the midpoint does not exist:
    [center_epochs] raises the [ValueError] of the [max] reduction
    before it calls any update, and the store of models is untouched,
    whatever the update methods are. *)
Theorem center_epochs_empty_toas
    (l : ref) (t : TOAs F) (h : gmap ref (TimingModel F)) :
  table t = [] ->
  center_epochs_with cp cpos cdm l t h =
  (h, Raise (ValueError
               "zero-size array to reduction operation maximum which has no identity")).
Proof.
  intros Ht. unfold center_epochs_with. rewrite Ht. reflexivity.
Qed.

(** Whatever the three update methods do and however the call
    ends, [center_epochs] touches no model but the one it was handed:
    every other object of the store is as before, and no object is
    added to or removed from the store. *)
Lemma center_epochs_frame
    (l : ref) (t : TOAs F) (h : gmap ref (TimingModel F)) :
  delete l (fst (center_epochs_with cp cpos cdm l t h)) = delete l h
  /\ dom (fst (center_epochs_with cp cpos cdm l t h)) = dom h.
Proof.
  destruct (Np.amax (map mjd (table t))) as [hi|e] eqn:Ehi;
    [|unfold center_epochs_with; rewrite Ehi; split; reflexivity].
  destruct (Np.amin (map mjd (table t))) as [lo|e] eqn:Elo;
    [|unfold center_epochs_with; rewrite Ehi, Elo; split; reflexivity].
  destruct (h !! l) as [m|] eqn:Hm.
  - rewrite (center_epochs_with_run cp cpos cdm l t h m hi lo Hm Ehi Elo).
    assert (Hdom : forall x : TimingModel F, dom (<[l := x]> h) = dom h).
    { intros x. apply dom_insert_lookup_L. eauto. }
    destruct (cp (fhalf (fadd hi lo)) m) as [m1 [[]|e]]; simpl;
      (split; [apply delete_insert_eq | apply Hdom]).
  - unfold center_epochs_with. rewrite Ehi, Elo.
    unfold lift, bind, call. rewrite Hm. split; reflexivity.
Qed.

End CenterEpochsMore.

(** X12.  On rational timestamps the primary epoch that
    [center_epochs] sets lies within the observed time span: between
    the earliest and the latest timestamp of the set, both of which are
    timestamps of records and bound all the others. *)
Theorem center_epochs_within_span
    (l : ref) (t : TOAs Q) (h : gmap ref (TimingModel Q)) (m : TimingModel Q) :
  h !! l = Some m ->
  is_Some (PEPOCH m) ->
  table t <> [] ->
  exists (lo hi mid : Q) (m' : TimingModel Q),
    center_epochs l t h = (<[l := m']> h, Ok l)
    /\ PEPOCH m' = Some mid
    /\ In lo (map mjd (table t)) /\ In hi (map mjd (table t))
    /\ Forall (fun x => Qle lo x /\ Qle x hi) (map mjd (table t))
    /\ Qle lo mid /\ Qle mid hi.
Proof.
  intros Hm [p Hp] Hne.
  destruct (amax_amin_defined (map mjd (table t))) as (hi & lo & Hhi & Hlo).
  { destruct (table t); [congruence | discriminate]. }
  destruct (amax_Q_greatest _ _ Hhi) as [Hin_hi Hall_hi].
  destruct (amin_Q_least _ _ Hlo) as [Hin_lo Hall_lo].
  exists lo, hi, (fhalf (fadd hi lo)). eexists.
  unfold center_epochs.
  rewrite (center_epochs_with_run _ _ _ l t h m hi lo Hm Hhi Hlo).
  unfold change_pepoch at 1. run. rewrite Hp. simpl.
  split; [reflexivity|].
  split; [destruct m as [psr pe [pos|] [dm|]]; reflexivity|].
  split; [exact Hin_lo|]. split; [exact Hin_hi|].
  split.
  { apply List.Forall_forall. intros x Hx. split.
    - exact (proj1 (List.Forall_forall _ _) Hall_lo x Hx).
    - exact (proj1 (List.Forall_forall _ _) Hall_hi x Hx). }
  assert (Hlh : Qle lo hi).
  { exact (proj1 (List.Forall_forall _ _) Hall_lo hi Hin_hi). }
  clear - Hlh. destruct lo as [a b], hi as [c d].
  unfold Qle, Qdiv, Qmult, Qplus, Qinv in *. simpl in *. split; nia.
Qed.

(** ** The residual plotter, continued *)

Lemma compress_map_combine {A B C} (f : A -> bool) (g : B -> C)
    (xs : list A) (ys : list B) :
  length ys = length xs ->
  Np.compress (map f xs) (map g ys) =
  map (fun p => g (snd p)) (List.filter (fun p => f (fst p)) (combine xs ys)).
Proof.
  revert ys. induction xs as [|x xs IH]; intros [|y ys] Hlen; simpl in *;
    try discriminate; [reflexivity|].
  destruct (f x); simpl; rewrite IH by congruence; reflexivity.
Qed.

Section PlotResMore.
Context {F : Type} `{FloatOps F}.

(** The success path, round by round. *)
Lemma plot_res_run (restype stage : string) (res : list F) (s : Scene F) :
  (contains "pre" restype = true /\ stage = "Pre" /\ res = resids_init (fit s))
  \/ (contains "pre" restype = false /\ contains "post" restype = true
      /\ stage = "Post" /\ res = resids (fit s)) ->
  length res = length (table (toas (fit s))) ->
  plot_res restype s =
  ({| fit := fit s;
      figure := figure s ++
                concat (map (Spec.site_round stage res (PSR (model (fit s)))
                                             (table (toas (fit s))))
                            (observatories (toas (fit s)))) |}, Ok tt).
Proof.
  intros Hmode Hlen. unfold plot_res. unfold bind at 1. unfold gets at 1.
  generalize (observatories (toas (fit s))) as l.
  match goal with |- forall l, for_in l ?b _ = _ => set (body := b) end.
  intros l. revert s Hmode Hlen. induction l as [|obso l IH]; intros s Hmode Hlen.
  - simpl. rewrite app_nil_r. now destruct s.
  - cbn [for_in]. unfold bind at 1. unfold body at 1.
    destruct s as [[[tb st ob] m ri rf] fig].
    cbn [fit toas table resids_init resids model figure] in *.
    unfold on_toas, zoom, get_obss, get_mjds, get_errors, select, unselect, plt.
    run. unfold Np.index_mask. rewrite !length_map, Nat.eqb_refl. simpl.
    destruct Hmode as [(Hpre & -> & ->)|(Hpre & Hpost & -> & ->)];
      rewrite Hpre, ?Hpost; simpl;
      rewrite !length_map, Hlen, Nat.eqb_refl; simpl;
      unfold with_toas; simpl;
      (rewrite IH; [|simpl; tauto|exact Hlen]);
      simpl; f_equal; f_equal;
      rewrite <- !app_assoc; simpl;
      rewrite !map_map, !compress_map_filter, compress_map_combine by exact Hlen;
      reflexivity.
Qed.

(** X13.  A mode string that contains [pre] anywhere plots the
    pre-fit residuals, also when it contains [post] as well; one that
    contains [post] and no [pre] plots the post-fit residuals.  With a
    residual column as long as the active table the call succeeds,
    leaves the fitter and its TOA set (table and selection stack) as
    they were, and appends to the figure, for every recorded
    observatory in turn, the error-bar series of that site's records
    followed by title, axis labels, grid and legend. *)
Theorem plot_res_draws_each_site
    (restype stage : string) (res : list F) (s : Scene F) :
  ((exists before after, restype = before +:+ "pre" +:+ after)
   /\ stage = "Pre" /\ res = resids_init (fit s))
  \/ ((forall before after, restype <> before +:+ "pre" +:+ after)
      /\ (exists before after, restype = before +:+ "post" +:+ after)
      /\ stage = "Post" /\ res = resids (fit s)) ->
  length res = length (table (toas (fit s))) ->
  plot_res restype s =
  ({| fit := fit s;
      figure := figure s ++
                concat (map (Spec.site_round stage res (PSR (model (fit s)))
                                             (table (toas (fit s))))
                            (observatories (toas (fit s)))) |}, Ok tt).
Proof.
  intros Hmode Hlen. apply plot_res_run; [|exact Hlen].
  destruct Hmode as [(Hpre & Hst & Hres)|(Hpre & Hpost & Hst & Hres)].
  - left. split; [now apply contains_spec | now split].
  - right. split; [|split; [now apply contains_spec | now split]].
    destruct (contains "pre" restype) eqn:E; [|reflexivity].
    apply contains_spec in E as (before & after & E). now destruct (Hpre before after).
Qed.

(** X14.  When the residual column of the chosen mode is not as long as
    the active table, the call raises [IndexError] in the first round,
    after it has narrowed the selection to the first site and before it
    draws anything; the TOA set is left narrowed, the table it had on
    the selection stack. *)
Theorem plot_res_residuals_mismatch
    (restype obso : string) (rest : list string) (res : list F) (s : Scene F) :
  observatories (toas (fit s)) = obso :: rest ->
  (contains "pre" restype = true /\ res = resids_init (fit s))
  \/ (contains "pre" restype = false /\ contains "post" restype = true
      /\ res = resids (fit s)) ->
  length res <> length (table (toas (fit s))) ->
  plot_res restype s =
  ({| fit := with_toas
               {| table := List.filter (fun r => String.eqb (obs r) obso)
                                       (table (toas (fit s)));
                  table_selects := table (toas (fit s)) :: table_selects (toas (fit s));
                  observatories := obso :: rest |}
               (fit s);
      figure := figure s |},
   Raise IndexError).
Proof.
  intros Hobs Hmode Hlen. unfold plot_res.
  unfold bind at 1. unfold gets at 1. rewrite Hobs.
  cbn [for_in]. unfold bind at 1.
  destruct s as [[[tb st ob] m ri rf] fig].
  cbn [fit toas table resids_init resids model figure observatories] in *.
  subst ob.
  unfold on_toas, zoom, get_obss, get_mjds, get_errors, select, unselect, plt.
  run. unfold Np.index_mask. rewrite !length_map, Nat.eqb_refl. simpl.
  assert (Hne : (length tb =? length res)%nat = false).
  { apply Nat.eqb_neq. congruence. }
  destruct Hmode as [(Hpre & ->)|(Hpre & Hpost & ->)];
    rewrite Hpre, ?Hpost; simpl;
    rewrite !length_map, Hne; simpl;
    unfold with_toas; simpl;
    now rewrite map_map, compress_map_filter.
Qed.

End PlotResMore.

(** ** The loader *)

Lemma bind_ok {S A B} (c : M S A) (k : A -> M S B) (s s' : S) (a : A) :
  c s = (s', Ok a) -> bind c k s = k a s'.
Proof. intros E. unfold bind. now rewrite E. Qed.

Lemma bind_raise {S A B} (c : M S A) (k : A -> M S B) (s s' : S) (e : exn) :
  c s = (s', Raise e) -> bind c k s = (s', Raise e).
Proof. intros E. unfold bind. now rewrite E. Qed.

Lemma lift_getitem {S F} (d : gmap string (pyval F)) (key : string) (v : pyval F) (s : S) :
  d !! key = Some v -> lift (getitem (PyDict d) key) s = (s, Ok v).
Proof. intros E. unfold lift. simpl. now rewrite E. Qed.

Lemma lift_getitem_missing {S F} (d : gmap string (pyval F)) (key : string) (s : S) :
  d !! key = None -> lift (getitem (PyDict d) key) s = (s, (Raise (KeyError key) : result (pyval F))).
Proof. intros E. unfold lift. simpl. now rewrite E. Qed.

Section LoaderFacts.
Context {F : Type}.
Variable py_str : pyval F -> string.
Variable py_add : pyval F -> pyval F -> result (pyval F).
Variable py_iter : pyval F -> result (list (pyval F)).
Variable Receivers : Type.
Variable py_set : list (pyval F) -> result Receivers.
Variable Model : Type.
Variable get_TOAs : string -> bool -> pyval F -> pyval F -> M Fs.filesystem (TOAs F).
Variable get_model : pyval F -> M Fs.filesystem Model.
Variable has_component : string -> Model -> bool.
Variable model_equatorial_to_ecliptic : Model -> M Fs.filesystem Model.
Variable check_ephem : TOAs F -> M Fs.filesystem unit.
Variable check_bipm : TOAs F -> M Fs.filesystem unit.
Variable check_name : Model -> M Fs.filesystem unit.
Variable check_jumps : Model -> Receivers -> M Fs.filesystem unit.

(** X15.  When [source], [tim-directory] or [toas] is missing from the
    configuration, [load_and_check] raises the [KeyError] of a missing
    key before it writes the manifest or calls any reader or check: the
    directory is untouched. *)
Theorem load_and_check_missing_early_key
    (d : gmap string (pyval F)) (usepickle : bool) (fs : gmap string string) :
  d !! "source" = None \/ d !! "tim-directory" = None \/ d !! "toas" = None ->
  exists key,
    d !! key = None
    /\ load_and_check py_str py_add py_iter Receivers py_set Model get_TOAs get_model
        has_component model_equatorial_to_ecliptic
        check_ephem check_bipm check_name check_jumps (PyDict d) usepickle fs = (fs, Raise (KeyError key)).
Proof.
  intros Hmiss. unfold load_and_check.
  destruct (d !! "source") as [src|] eqn:Hsrc.
  2:{ exists "source". split; [exact Hsrc|].
      now rewrite (bind_raise _ _ _ _ _ (lift_getitem_missing d "source" fs Hsrc)). }
  rewrite (bind_ok _ _ _ _ _ (lift_getitem d "source" src fs Hsrc)).
  destruct (d !! "tim-directory") as [dir|] eqn:Hdir.
  2:{ exists "tim-directory". split; [exact Hdir|].
      now rewrite (bind_raise _ _ _ _ _ (lift_getitem_missing d "tim-directory" fs Hdir)). }
  rewrite (bind_ok _ _ _ _ _ (lift_getitem d "tim-directory" dir fs Hdir)).
  destruct (d !! "toas") as [names|] eqn:Htoas.
  { destruct Hmiss as [?|[?|?]]; discriminate. }
  exists "toas". split; [exact Htoas|].
  now rewrite (bind_raise _ _ _ _ _ (lift_getitem_missing d "toas" fs Htoas)).
Qed.

Section WellFormed.

(** A configuration whose [source] and [tim-directory] are strings and
    whose [toas] is a list of strings, under an interpreter that
    formats a string as itself, iterates a list over its elements and
    adds strings by concatenation. *)
Variables (d : gmap string (pyval F)) (src dir : string) (names : list string).
Hypothesis Hsrc : d !! "source" = Some (PyStr src).
Hypothesis Hdir : d !! "tim-directory" = Some (PyStr dir).
Hypothesis Htoas : d !! "toas" = Some (PyList (map PyStr names)).
Hypothesis Hstr : forall s, py_str (PyStr s) = s.
Hypothesis Hiter : forall l, py_iter (PyList l) = Ok l.
Hypothesis Hadd : forall a b, py_add (PyStr a) (PyStr b) = Ok (PyStr (a +:+ b)).

Variables (usepickle : bool) (fs : gmap string string).

Abbreviation with_manifest :=
  (<[src +:+ ".tim" :=
       foldr String.append EmptyString
             (map (fun tf => "INCLUDE " +:+ (dir +:+ tf) +:+ newline) names)]> fs).

Lemma traverse_add_dir (l : list string) :
  traverse (fun tf => py_add (PyStr dir) tf) (map PyStr l) =
  Ok (map (fun tf => PyStr (dir +:+ tf)) l).
Proof.
  induction l as [|tf l IH]; simpl; [reflexivity|].
  now rewrite Hadd, IH.
Qed.

Lemma manifest_written :
  write_include_tim (py_str (PyStr src))
                    (map py_str (map (fun tf => PyStr (dir +:+ tf)) names)) fs =
  (with_manifest, Ok (src +:+ ".tim")).
Proof.
  rewrite write_include_tim_run, Hstr, !map_map. do 3 f_equal.
  apply map_ext. intros tf. now rewrite Hstr.
Qed.

(** Runs the loader up to and including the writing of the manifest. *)
Ltac to_manifest :=
  unfold load_and_check;
  rewrite (bind_ok _ _ _ _ _ (lift_getitem d "source" _ fs Hsrc));
  rewrite (bind_ok _ _ _ _ _ (lift_getitem d "tim-directory" _ fs Hdir));
  rewrite (bind_ok _ _ _ _ _ (lift_getitem d "toas" _ fs Htoas));
  rewrite (bind_ok (lift (py_iter _)) _ fs fs (map PyStr names))
    by (unfold lift; now rewrite Hiter);
  rewrite (bind_ok (lift (traverse _ _)) _ fs fs
             (map (fun tf => PyStr (dir +:+ tf)) names))
    by (unfold lift; now rewrite traverse_add_dir);
  rewrite (bind_ok _ _ _ _ _ manifest_written).

(** X16.  The entries [bipm] and [ephem] are looked up only after the
    manifest has been written: when one of them is missing,
    [load_and_check] raises the [KeyError] of a missing key and leaves
    the manifest [<source>.tim] behind, with one [INCLUDE] line per
    name, each name prefixed by the TOA directory.  No reader or check
    has run. *)
Theorem load_and_check_missing_late_key :
  d !! "bipm" = None \/ d !! "ephem" = None ->
  exists key,
    d !! key = None
    /\ load_and_check py_str py_add py_iter Receivers py_set Model get_TOAs get_model
        has_component model_equatorial_to_ecliptic
        check_ephem check_bipm check_name check_jumps (PyDict d) usepickle fs = (with_manifest, Raise (KeyError key)).
Proof.
  intros Hmiss. to_manifest.
  destruct (d !! "bipm") as [vb|] eqn:Hb.
  2:{ exists "bipm". split; [exact Hb|].
      now rewrite (bind_raise _ _ _ _ _ (lift_getitem_missing d "bipm" _ Hb)). }
  rewrite (bind_ok _ _ _ _ _ (lift_getitem d "bipm" vb _ Hb)).
  destruct (d !! "ephem") as [ve|] eqn:He.
  { destruct Hmiss; discriminate. }
  exists "ephem". split; [exact He|].
  now rewrite (bind_raise _ _ _ _ _ (lift_getitem_missing d "ephem" _ He)).
Qed.

Variables (vb ve : pyval F).
Hypothesis Hbipm : d !! "bipm" = Some vb.
Hypothesis Hephem : d !! "ephem" = Some ve.

Ltac to_reader :=
  to_manifest;
  rewrite (bind_ok _ _ _ _ _ (lift_getitem d "bipm" _ _ Hbipm));
  rewrite (bind_ok _ _ _ _ _ (lift_getitem d "ephem" _ _ Hephem)).

(** X17.  The TOA reader is called on the manifest name, with the
    pickle toggle and the configured clock and ephemeris versions, in a
    directory that already holds the manifest.  A failure of the
    reader, of the ephemeris check or of the clock check ends the call
    with that exception at once: the later checks are not run and no
    model is read. *)
Theorem load_and_check_fails_fast :
  (forall fs2 e,
      get_TOAs (src +:+ ".tim") usepickle vb ve with_manifest = (fs2, Raise e) ->
      load_and_check py_str py_add py_iter Receivers py_set Model get_TOAs get_model
        has_component model_equatorial_to_ecliptic
        check_ephem check_bipm check_name check_jumps (PyDict d) usepickle fs = (fs2, Raise e))
  /\ (forall fs2 to fs3 e,
      get_TOAs (src +:+ ".tim") usepickle vb ve with_manifest = (fs2, Ok to) ->
      check_ephem to fs2 = (fs3, Raise e) ->
      load_and_check py_str py_add py_iter Receivers py_set Model get_TOAs get_model
        has_component model_equatorial_to_ecliptic
        check_ephem check_bipm check_name check_jumps (PyDict d) usepickle fs = (fs3, Raise e))
  /\ (forall fs2 to fs3 fs4 e,
      get_TOAs (src +:+ ".tim") usepickle vb ve with_manifest = (fs2, Ok to) ->
      check_ephem to fs2 = (fs3, Ok tt) ->
      check_bipm to fs3 = (fs4, Raise e) ->
      load_and_check py_str py_add py_iter Receivers py_set Model get_TOAs get_model
        has_component model_equatorial_to_ecliptic
        check_ephem check_bipm check_name check_jumps (PyDict d) usepickle fs = (fs4, Raise e)).
Proof.
  split; [|split].
  - intros fs2 e Hread. to_reader.
    now rewrite (bind_raise _ _ _ _ _ Hread).
  - intros fs2 to fs3 e Hread Hchk. to_reader.
    rewrite (bind_ok _ _ _ _ _ Hread).
    now rewrite (bind_raise _ _ _ _ _ Hchk).
  - intros fs2 to fs3 fs4 e Hread Hchk1 Hchk2. to_reader.
    rewrite (bind_ok _ _ _ _ _ Hread).
    rewrite (bind_ok _ _ _ _ _ Hchk1).
    now rewrite (bind_raise _ _ _ _ _ Hchk2).
Qed.

(** X18.  On the success path the model is read from the par directory
    joined with the model file name.  A model with equatorial
    astrometry is converted before the name and jump checks, which see
    the converted model, and the converted model is the one returned; a
    model without it is checked and returned as read, and the
    conversion is not called.  The jump check receives the set of the
    [fe] values of the loaded TOAs. *)
Theorem load_and_check_converts_before_checks
    (pdir pname : string) (to : TOAs F) (rc : Receivers) (mo mo' : Model)
    (fs2 fs3 fs4 fs5 fs6 fs7 fs8 : gmap string string) :
  d !! "par-directory" = Some (PyStr pdir) ->
  d !! "timing-model" = Some (PyStr pname) ->
  get_TOAs (src +:+ ".tim") usepickle vb ve with_manifest = (fs2, Ok to) ->
  check_ephem to fs2 = (fs3, Ok tt) ->
  check_bipm to fs3 = (fs4, Ok tt) ->
  py_set (map (fun r => default PyNone (flags r !! "fe")) (table to)) = Ok rc ->
  get_model (PyStr (pdir +:+ pname)) fs4 = (fs5, Ok mo) ->
  (has_component "AstrometryEquatorial" mo = true ->
   model_equatorial_to_ecliptic mo fs5 = (fs6, Ok mo') ->
   check_name mo' fs6 = (fs7, Ok tt) ->
   check_jumps mo' rc fs7 = (fs8, Ok tt) ->
   load_and_check py_str py_add py_iter Receivers py_set Model get_TOAs get_model
        has_component model_equatorial_to_ecliptic
        check_ephem check_bipm check_name check_jumps (PyDict d) usepickle fs = (fs8, Ok (to, mo')))
  /\ (has_component "AstrometryEquatorial" mo = false ->
      check_name mo fs5 = (fs6, Ok tt) ->
      check_jumps mo rc fs6 = (fs7, Ok tt) ->
      load_and_check py_str py_add py_iter Receivers py_set Model get_TOAs get_model
        has_component model_equatorial_to_ecliptic
        check_ephem check_bipm check_name check_jumps (PyDict d) usepickle fs = (fs7, Ok (to, mo))).
Proof.
  intros Hpdir Hpname Hread Hce Hcb Hset Hmodel.
  assert (Hadd' : forall s : gmap string string,
             lift (py_add (PyStr pdir) (PyStr pname)) s = (s, Ok (PyStr (pdir +:+ pname)))).
  { intros s. unfold lift. now rewrite Hadd. }
  split.
  - intros Heq Hconv Hcn Hcj. to_reader.
    rewrite (bind_ok _ _ _ _ _ Hread).
    rewrite (bind_ok _ _ _ _ _ Hce).
    rewrite (bind_ok _ _ _ _ _ Hcb).
    rewrite (bind_ok (lift (py_set _)) _ fs4 fs4 rc) by (unfold lift; now rewrite Hset).
    rewrite (bind_ok _ _ _ _ _ (lift_getitem d "par-directory" _ fs4 Hpdir)).
    rewrite (bind_ok _ _ _ _ _ (lift_getitem d "timing-model" _ fs4 Hpname)).
    rewrite (bind_ok _ _ _ _ _ (Hadd' fs4)).
    rewrite (bind_ok _ _ _ _ _ Hmodel).
    rewrite Heq.
    rewrite (bind_ok _ _ _ _ _ Hconv).
    rewrite (bind_ok _ _ _ _ _ Hcn).
    rewrite (bind_ok _ _ _ _ _ Hcj).
    reflexivity.
  - intros Heq Hcn Hcj. to_reader.
    rewrite (bind_ok _ _ _ _ _ Hread).
    rewrite (bind_ok _ _ _ _ _ Hce).
    rewrite (bind_ok _ _ _ _ _ Hcb).
    rewrite (bind_ok (lift (py_set _)) _ fs4 fs4 rc) by (unfold lift; now rewrite Hset).
    rewrite (bind_ok _ _ _ _ _ (lift_getitem d "par-directory" _ fs4 Hpdir)).
    rewrite (bind_ok _ _ _ _ _ (lift_getitem d "timing-model" _ fs4 Hpname)).
    rewrite (bind_ok _ _ _ _ _ (Hadd' fs4)).
    rewrite (bind_ok _ _ _ _ _ Hmodel).
    rewrite Heq.
    rewrite (bind_ok (ret mo) _ fs5 fs5 mo) by reflexivity.
    rewrite (bind_ok _ _ _ _ _ Hcn).
    rewrite (bind_ok _ _ _ _ _ Hcj).
    reflexivity.
Qed.

End WellFormed.

End LoaderFacts.

(** ** The further properties on the sample data *)

Lemma cut_then_unselect_restores_witness :
  unselect (fst (apply_mjd_cut (Sample.window (PyInt 58000) (PyInt 58020)) false
                   Sample.three_toas)) = (Sample.three_toas, Ok tt)
  /\ unselect (fst (apply_snr_cut (inject_Z 8) false Sample.three_toas)) =
       (Sample.three_toas, Ok tt).
Proof.
  pose proof (cut_then_unselect_restores
                (Sample.window (PyInt 58000) (PyInt 58020)) (inject_Z 8) false
                Sample.three_toas) as [Wm Ws].
  split; [apply Wm | apply Ws]; reflexivity.
Defined.



Lemma apply_snr_cut_missing_attribute_witness :
  exists e, apply_snr_cut (inject_Z 8) false Sample.untagged_toas =
            (Sample.untagged_toas, Raise e).
Proof.
  apply (apply_snr_cut_missing_attribute (inject_Z 8) false Sample.untagged_toas).
  right. left. reflexivity.
Defined.

Lemma apply_mjd_cut_ignore_not_mapping_witness :
  apply_mjd_cut (PyDict {[ "ignore" := PyNone ]}) false Sample.three_toas =
  (Sample.three_toas, Raise TypeError).
Proof.
  apply (apply_mjd_cut_ignore_not_mapping {[ "ignore" := PyNone ]} PyNone false
           Sample.three_toas).
  - reflexivity.
  - discriminate.
Defined.

Lemma center_epochs_empty_toas_witness :
  center_epochs 1%positive Sample.no_toas {[ 1%positive := Sample.bare_model ]} =
  ({[ 1%positive := Sample.bare_model ]},
   Raise (ValueError
            "zero-size array to reduction operation maximum which has no identity")).
Proof.
  apply (center_epochs_empty_toas change_pepoch change_posepoch change_dmepoch
           1%positive Sample.no_toas {[ 1%positive := Sample.bare_model ]}).
  reflexivity.
Defined.

Lemma center_epochs_within_span_witness :
  exists (lo hi mid : Q) (m' : TimingModel Q),
    center_epochs 1%positive Sample.three_toas {[ 1%positive := Sample.bare_model ]}
    = (<[1%positive := m']> {[ 1%positive := Sample.bare_model ]}, Ok 1%positive)
    /\ PEPOCH m' = Some mid
    /\ In lo (map mjd (table Sample.three_toas))
    /\ In hi (map mjd (table Sample.three_toas))
    /\ Forall (fun x => Qle lo x /\ Qle x hi) (map mjd (table Sample.three_toas))
    /\ Qle lo mid /\ Qle mid hi.
Proof.
  apply (center_epochs_within_span 1%positive Sample.three_toas
           {[ 1%positive := Sample.bare_model ]} Sample.bare_model).
  - reflexivity.
  - eexists. reflexivity.
  - discriminate.
Defined.

(** The mode [postfit_preview] holds [pre]: the pre-fit residuals are
    drawn. *)
Lemma plot_res_draws_each_site_witness :
  plot_res "postfit_preview" (Sample.scene_of Sample.three_toas) =
  ({| fit := Sample.fitter_of Sample.three_toas;
      figure := [] ++
                concat (map (Spec.site_round "Pre"
                               [inject_Z 1; inject_Z 2; inject_Z 3]
                               (Some "J0000+0000")
                               (table Sample.three_toas))
                            ["ao"; "gbt"]) |}, Ok tt).
Proof.
  apply (plot_res_draws_each_site "postfit_preview" "Pre"
           [inject_Z 1; inject_Z 2; inject_Z 3] (Sample.scene_of Sample.three_toas)).
  - left. split; [|split; reflexivity].
    exists "postfit_", "view". reflexivity.
  - reflexivity.
Defined.

Lemma plot_res_residuals_mismatch_witness :
  plot_res "prefit" Sample.short_scene =
  ({| fit := with_toas
               {| table := List.filter (fun r => String.eqb (obs r) "ao")
                                       (table Sample.three_toas);
                  table_selects := [table Sample.three_toas];
                  observatories := ["ao"; "gbt"] |}
               (fit Sample.short_scene);
      figure := [] |},
   Raise IndexError).
Proof.
  apply (plot_res_residuals_mismatch "prefit" "ao" ["gbt"]
           [inject_Z 1; inject_Z 2] Sample.short_scene).
  - reflexivity.
  - left. split; reflexivity.
  - simpl. lia.
Defined.

Lemma load_and_check_missing_early_key_witness :
  exists key,
    Sample.config_without "toas" !! key = None
    /\ Sample.load Sample.passes (PyDict (Sample.config_without "toas")) false ∅ =
       (∅, Raise (KeyError key)).
Proof.
  apply (load_and_check_missing_early_key
           Sample.format_value Sample.add_values Sample.iterate _ Sample.as_set _
           Sample.read_toas Sample.read_model Sample.is_component Sample.to_ecliptic
           Sample.passes Sample.passes Sample.passes Sample.jumps_pass
           (Sample.config_without "toas") false ∅).
  right. right. reflexivity.
Defined.

Lemma load_and_check_missing_late_key_witness :
  exists key,
    Sample.config_without "bipm" !! key = None
    /\ Sample.load Sample.passes (PyDict (Sample.config_without "bipm")) false ∅ =
       (<["J0000+0000" +:+ ".tim" :=
            foldr String.append EmptyString
                  (map (fun tf => "INCLUDE " +:+ ("./tim/" +:+ tf) +:+ newline)
                       ["a.tim"; "b.tim"])]> ∅,
        Raise (KeyError key)).
Proof.
  apply (load_and_check_missing_late_key
           Sample.format_value Sample.add_values Sample.iterate _ Sample.as_set _
           Sample.read_toas Sample.read_model Sample.is_component Sample.to_ecliptic
           Sample.passes Sample.passes Sample.passes Sample.jumps_pass
           (Sample.config_without "bipm") "J0000+0000" "./tim/" ["a.tim"; "b.tim"]
           eq_refl eq_refl eq_refl
           (fun _ => eq_refl) (fun _ => eq_refl) (fun _ _ => eq_refl) false ∅).
  left. reflexivity.
Defined.

(** With an ephemeris check that fails, the sample configuration is
    loaded as far as that check: the manifest is on disk, no model is
    returned. *)
Lemma load_and_check_fails_fast_witness :
  Sample.load Sample.fails (PyDict Sample.config) false ∅ =
  ({[ "J0000+0000.tim" := Sample.manifest ]}, Raise (ValueError "check failed")).
Proof.
  apply (proj1 (proj2 (load_and_check_fails_fast
           Sample.format_value Sample.add_values Sample.iterate _ Sample.as_set _
           Sample.read_toas Sample.read_model Sample.is_component Sample.to_ecliptic
           Sample.fails Sample.passes Sample.passes Sample.jumps_pass
           Sample.config "J0000+0000" "./tim/" ["a.tim"; "b.tim"]
           eq_refl eq_refl eq_refl
           (fun _ => eq_refl) (fun _ => eq_refl) (fun _ _ => eq_refl) false ∅
           (PyStr "BIPM2017") (PyStr "DE436") eq_refl eq_refl))
         {[ "J0000+0000.tim" := Sample.manifest ]} Sample.three_toas).
  - reflexivity.
  - reflexivity.
Defined.

(** With checks that pass, the equatorial sample model comes back
    converted. *)
Lemma load_and_check_converts_before_checks_witness :
  Sample.load Sample.passes (PyDict Sample.config) false ∅ =
  ({[ "J0000+0000.tim" := Sample.manifest ]},
   Ok (Sample.three_toas, (false, Sample.bare_model))).
Proof.
  refine (proj1 (load_and_check_converts_before_checks
           Sample.format_value Sample.add_values Sample.iterate _ Sample.as_set _
           Sample.read_toas Sample.read_model Sample.is_component Sample.to_ecliptic
           Sample.passes Sample.passes Sample.passes Sample.jumps_pass
           Sample.config "J0000+0000" "./tim/" ["a.tim"; "b.tim"]
           eq_refl eq_refl eq_refl
           (fun _ => eq_refl) (fun _ => eq_refl) (fun _ _ => eq_refl) false ∅
           (PyStr "BIPM2017") (PyStr "DE436") eq_refl eq_refl
           "./par/" "J0000+0000.par" Sample.three_toas
           (map (fun r => default PyNone (flags r !! "fe")) (table Sample.three_toas))
           (true, Sample.bare_model) (false, Sample.bare_model)
           {[ "J0000+0000.tim" := Sample.manifest ]}
           {[ "J0000+0000.tim" := Sample.manifest ]}
           {[ "J0000+0000.tim" := Sample.manifest ]}
           {[ "J0000+0000.tim" := Sample.manifest ]}
           {[ "J0000+0000.tim" := Sample.manifest ]}
           {[ "J0000+0000.tim" := Sample.manifest ]}
           {[ "J0000+0000.tim" := Sample.manifest ]}
           _ _ _ _ _ _ _) _ _ _ _);
    reflexivity.
Defined.

(** * The manifest, the masks and the midpoint, stated in full *)

(** ** The lines of the manifest *)

Lemma manifest_split_lines (l : list string) :
  Forall (fun tf => Spec.has_newline tf = false) l ->
  Spec.split_lines
    (foldr String.append EmptyString (map (fun tf => "INCLUDE " +:+ tf +:+ newline) l)) =
  map (fun tf => "INCLUDE " +:+ tf) l.
Proof.
  induction 1 as [|tf l Htf _ IH]; [reflexivity|].
  rewrite !map_cons. cbn [foldr]. rewrite <- IH.
  rewrite <- (str_app_assoc "INCLUDE " tf newline).
  rewrite (str_app_assoc ("INCLUDE " +:+ tf) newline).
  apply split_lines_terminated. exact Htf.
Qed.

(** C4, as the code has it.  For every source name and every list of
    TOA file names none of which holds a newline character,
    [write_include_tim] leaves a file named [<source>.tim] and returns
    that name; the file has exactly as many lines as there are names,
    the lines are [INCLUDE <name>] for the names in their order, and
    every line is followed by a newline. *)
Theorem write_include_tim_manifest
    (source : string) (tim_file_list : list string) (fs : gmap string string) :
  Forall (fun tf => Spec.has_newline tf = false) tim_file_list ->
  exists content : string,
    write_include_tim source tim_file_list fs =
      (<[source +:+ ".tim" := content]> fs, Ok (source +:+ ".tim"))
    /\ length (Spec.split_lines content) = length tim_file_list
    /\ Spec.split_lines content = map (fun tf => "INCLUDE " +:+ tf) tim_file_list
    /\ content = foldr String.append EmptyString
                       (map (fun line => line +:+ newline) (Spec.split_lines content)).
Proof.
  intros Hall. eexists. split; [apply write_include_tim_run|].
  rewrite (manifest_split_lines _ Hall), !length_map, map_map.
  split; [reflexivity|]. split; [reflexivity|].
  reflexivity.
Qed.

Lemma write_include_tim_manifest_witness :
  exists content : string,
    write_include_tim "J0000+0000" ["./tim/a.tim"; "./tim/b.tim"] ∅ =
      (<["J0000+0000" +:+ ".tim" := content]> ∅, Ok ("J0000+0000" +:+ ".tim"))
    /\ length (Spec.split_lines content) = 2
    /\ Spec.split_lines content = ["INCLUDE ./tim/a.tim"; "INCLUDE ./tim/b.tim"]
    /\ content = foldr String.append EmptyString
                       (map (fun line => line +:+ newline) (Spec.split_lines content)).
Proof.
  apply (write_include_tim_manifest "J0000+0000" ["./tim/a.tim"; "./tim/b.tim"] ∅).
  repeat constructor.
Defined.

(** C4 as stated fails: the one file name [a<newline>b] gives a
    manifest of two lines, [INCLUDE a] and [b]. *)
Lemma write_include_tim_newline_in_name :
  exists content : string,
    fst (write_include_tim "J0000+0000" ["a" +:+ newline +:+ "b"] ∅)
      !! ("J0000+0000" +:+ ".tim") = Some content
    /\ length ["a" +:+ newline +:+ "b"] = 1
    /\ Spec.split_lines content = ["INCLUDE a"; "b"]
    /\ length (Spec.split_lines content) = 2.
Proof.
  eexists. split.
  - rewrite write_include_tim_run. apply lookup_insert_eq.
  - split; [reflexivity|]. split; reflexivity.
Qed.

(** ** The two masks of the time window *)

Section WindowMasks.
Context {F : Type} `{FloatOps F}.

(** C6.  With both entries present and usable, and a table that has
    records, the lower mask and the upper mask are computed one after
    the other from the same, still unchanged TOA set.  Each is the
    record-wise test of its bound, as long as the active table: for a
    supplied lower bound [a] the test [t > a], for a supplied upper
    bound [b] the test [t < b], and all-true for a bound that counts as
    absent.  The cut is the single selection by their conjunction: it
    pushes the table once and keeps the records that pass both tests.
    With both bounds absent the applied mask is all-true and the active
    table stays what it was. *)
Theorem apply_mjd_cut_single_selection
    (d ig : gmap string (pyval F)) (vs ve : pyval F)
    (summary : bool) (t : TOAs F) :
  d !! "ignore" = Some (PyDict ig) ->
  ig !! "mjd-start" = Some vs -> ig !! "mjd-end" = Some ve ->
  Spec.usable_bound vs -> Spec.usable_bound ve ->
  table t <> [] ->
  exists smin smax : list bool,
    select_min (PyDict d) t = (t, Ok smin)
    /\ select_max (PyDict d) t = (t, Ok smax)
    /\ smin = map (Spec.above vs) (table t)
    /\ smax = map (Spec.below ve) (table t)
    /\ (forall a, truthy vs = true -> as_float vs = Some a ->
          smin = map (fun r => fgt (mjd r) a) (table t))
    /\ (forall b, truthy ve = true -> as_float ve = Some b ->
          smax = map (fun r => flt (mjd r) b) (table t))
    /\ (truthy vs = false -> smin = Np.all_true (length (table t)))
    /\ (truthy ve = false -> smax = Np.all_true (length (table t)))
    /\ length smin = length (table t)
    /\ length smax = length (table t)
    /\ apply_mjd_cut (PyDict d) summary t = select (Np.logical_and smin smax) t
    /\ snd (apply_mjd_cut (PyDict d) summary t) = Ok tt
    /\ table (fst (apply_mjd_cut (PyDict d) summary t)) =
         List.filter (fun r => Spec.above vs r && Spec.below ve r) (table t)
    /\ table_selects (fst (apply_mjd_cut (PyDict d) summary t)) =
         table t :: table_selects t
    /\ (truthy vs = false -> truthy ve = false ->
          Np.logical_and smin smax = Np.all_true (length (table t))
          /\ table (fst (apply_mjd_cut (PyDict d) summary t)) = table t).
Proof.
  intros Hd Hs He Us Ue _.
  exists (map (Spec.above vs) (table t)), (map (Spec.below ve) (table t)).
  pose proof (select_min_mask d ig vs t Hd Hs Us) as Emin.
  pose proof (select_max_mask d ig ve t Hd He Ue) as Emax.
  split; [exact Emin|]. split; [exact Emax|].
  split; [reflexivity|]. split; [reflexivity|].
  split.
  { intros a Ts Fa. apply map_ext. intros r. unfold Spec.above. now rewrite Ts, Fa. }
  split.
  { intros b Te Fb. apply map_ext. intros r. unfold Spec.below. now rewrite Te, Fb. }
  assert (Amin : truthy vs = false ->
                 map (Spec.above vs) (table t) = Np.all_true (length (table t))).
  { intros Ts. symmetry. apply all_true_map. intros r. unfold Spec.above. now rewrite Ts. }
  assert (Amax : truthy ve = false ->
                 map (Spec.below ve) (table t) = Np.all_true (length (table t))).
  { intros Te. symmetry. apply all_true_map. intros r. unfold Spec.below. now rewrite Te. }
  split; [exact Amin|]. split; [exact Amax|].
  split; [apply length_map|]. split; [apply length_map|].
  rewrite (apply_mjd_cut_run d summary t _ _ Emin Emax) by apply length_map.
  rewrite select_run
    by (apply logical_and_length; apply length_map).
  rewrite logical_and_map, compress_map_filter. simpl.
  split; [reflexivity|]. split; [reflexivity|]. split; [reflexivity|].
  split; [reflexivity|].
  intros Ts Te. split.
  - rewrite <- logical_and_map, (Amin Ts), (Amax Te).
    apply logical_and_true_l. unfold Np.all_true. apply length_replicate.
  - rewrite <- (List.filter_ext (fun _ => true)).
    + clear. induction (table t) as [|r l IH]; simpl; [reflexivity | now rewrite IH].
    + intros r. unfold Spec.above, Spec.below. now rewrite Ts, Te.
Qed.

End WindowMasks.

(** The sample set under a window with the lower bound 58005 supplied
    and no upper bound: the lower mask drops the record at 58000, the
    upper mask is all-true, and the two later records stay. *)
Lemma apply_mjd_cut_single_selection_witness :
  exists smin smax : list bool,
    select_min (Sample.window (PyInt 58005) PyNone) Sample.three_toas
      = (Sample.three_toas, Ok smin)
    /\ select_max (Sample.window (PyInt 58005) PyNone) Sample.three_toas
      = (Sample.three_toas, Ok smax)
    /\ smin = [false; true; true]
    /\ smax = [true; true; true]
    /\ apply_mjd_cut (Sample.window (PyInt 58005) PyNone) false Sample.three_toas
       = select (Np.logical_and smin smax) Sample.three_toas
    /\ table (fst (apply_mjd_cut (Sample.window (PyInt 58005) PyNone) false
                     Sample.three_toas)) =
       [Sample.toa 58010 "ao" 8; Sample.toa 58020 "gbt" 12].
Proof.
  assert (Us : Spec.usable_bound (F := Q) (PyInt 58005))
    by (right; eexists; reflexivity).
  assert (Ue : Spec.usable_bound (F := Q) PyNone) by (left; reflexivity).
  assert (Hne : table Sample.three_toas <> []) by discriminate.
  destruct (apply_mjd_cut_single_selection
              (Sample.window_dict (PyInt 58005) PyNone)
              (Sample.window_ignore (PyInt 58005) PyNone)
              (PyInt 58005) PyNone false Sample.three_toas
              eq_refl eq_refl eq_refl Us Ue Hne)
    as (smin & smax & E1 & E2 & M1 & M2 & _ & _ & _ & _ & _ & _ & E & _ & T & _).
  exists smin, smax.
  split; [exact E1|]. split; [exact E2|].
  split; [rewrite M1; reflexivity|]. split; [rewrite M2; reflexivity|].
  split; [exact E|]. etransitivity; [exact T | reflexivity].
Defined.

(** ** The midpoint of the observed span *)

Section OrderedReductions.
Context {F : Type} `{FloatOps F}.
Hypothesis Hord : Spec.ordered (F := F).

Lemma fold_left_fmaximum_greatest (a : list F) (x : F) :
  (fold_left fmaximum a x = x \/ In (fold_left fmaximum a x) a)
  /\ Spec.fle x (fold_left fmaximum a x)
  /\ Forall (fun y => Spec.fle y (fold_left fmaximum a x)) a.
Proof.
  destruct Hord as (Htrans & Hpick & Hup & _ & _).
  revert x. induction a as [|y a IH]; intros x; cbn [fold_left].
  - split; [now left|]. split; [apply flt_irrefl | constructor].
  - destruct (IH (fmaximum x y)) as (Hin & Hle & Hall).
    destruct (Hup x y) as [Hx Hy].
    split; [|split].
    + destruct Hin as [->|Hin]; [|right; now right].
      destruct (Hpick x y) as [->| ->]; [now left | right; now left].
    + exact (Htrans _ _ _ Hx Hle).
    + constructor; [exact (Htrans _ _ _ Hy Hle) | exact Hall].
Qed.

Lemma fold_left_fminimum_least (a : list F) (x : F) :
  (fold_left fminimum a x = x \/ In (fold_left fminimum a x) a)
  /\ Spec.fle (fold_left fminimum a x) x
  /\ Forall (fun y => Spec.fle (fold_left fminimum a x) y) a.
Proof.
  destruct Hord as (Htrans & _ & _ & Hpick & Hlow).
  revert x. induction a as [|y a IH]; intros x; cbn [fold_left].
  - split; [now left|]. split; [apply flt_irrefl | constructor].
  - destruct (IH (fminimum x y)) as (Hin & Hle & Hall).
    destruct (Hlow x y) as [Hx Hy].
    split; [|split].
    + destruct Hin as [->|Hin]; [|right; now right].
      destruct (Hpick x y) as [->| ->]; [now left | right; now left].
    + exact (Htrans _ _ _ Hle Hx).
    + constructor; [exact (Htrans _ _ _ Hle Hy) | exact Hall].
Qed.

Lemma amax_greatest (a : list F) (hi : F) :
  Np.amax a = Ok hi -> In hi a /\ Forall (fun y => Spec.fle y hi) a.
Proof.
  destruct a as [|x a]; [discriminate|]. unfold Np.amax. intros [= <-].
  destruct (fold_left_fmaximum_greatest a x) as (Hin & Hle & Hall).
  split; [destruct Hin as [->|Hin]; [now left | now right]|].
  constructor; assumption.
Qed.

Lemma amin_least (a : list F) (lo : F) :
  Np.amin a = Ok lo -> In lo a /\ Forall (fun y => Spec.fle lo y) a.
Proof.
  destruct a as [|x a]; [discriminate|]. unfold Np.amin. intros [= <-].
  destruct (fold_left_fminimum_least a x) as (Hin & Hle & Hall).
  split; [destruct Hin as [->|Hin]; [now left | now right]|].
  constructor; assumption.
Qed.

(** C3.  Where the comparison orders the timestamps, on a model that has
    a primary epoch and a TOA set that has records: there are a least
    timestamp [t_min] and a greatest timestamp [t_max] of the set (each
    the timestamp of a record, below resp. above all the others), and
    [center_epochs] returns the reference it was given, with the primary
    epoch of the object behind it at exactly [(t_min + t_max) / 2].  A
    position epoch or dispersion-measure epoch that the model lacks is
    still lacking afterwards, without an error; one that it has is
    moved to the midpoint too. *)
Theorem center_epochs_midpoint
    (l : ref) (t : TOAs F) (h : gmap ref (TimingModel F)) (m : TimingModel F) :
  h !! l = Some m ->
  is_Some (PEPOCH m) ->
  table t <> [] ->
  exists (tmin tmax : F) (m' : TimingModel F),
    (In tmin (map mjd (table t))
     /\ Forall (fun x => Spec.fle tmin x) (map mjd (table t)))
    /\ (In tmax (map mjd (table t))
        /\ Forall (fun x => Spec.fle x tmax) (map mjd (table t)))
    /\ center_epochs l t h = (<[l := m']> h, Ok l)
    /\ PEPOCH m' = Some (fhalf (fadd tmin tmax))
    /\ POSEPOCH m' = match POSEPOCH m with
                     | Some _ => Some (fhalf (fadd tmin tmax))
                     | None => None
                     end
    /\ DMEPOCH m' = match DMEPOCH m with
                    | Some _ => Some (fhalf (fadd tmin tmax))
                    | None => None
                    end
    /\ PSR m' = PSR m.
Proof.
  intros Hm Hp Hne.
  destruct (center_epochs_sets_epochs l t h m Hm Hp Hne)
    as (tmin & tmax & m' & Hlo & Hhi & Hrun & Hrest).
  exists tmin, tmax, m'.
  split; [exact (amin_least _ _ Hlo)|].
  split; [exact (amax_greatest _ _ Hhi)|].
  split; [exact Hrun | exact Hrest].
Qed.

End OrderedReductions.

(** The comparison of the rationals orders them. *)
Lemma Q_ordered : Spec.ordered (F := Q).
Proof.
  assert (Hasym : forall x y, Qltb x y = true -> Qltb y x = false).
  { intros x y. unfold Qltb. intros E%Z.ltb_lt. apply Z.ltb_ge. lia. }
  assert (Hirr : forall x, Qltb x x = false).
  { intros x. unfold Qltb. apply Z.ltb_irrefl. }
  unfold Spec.ordered, Spec.fle.
  change (@flt Q _) with Qltb.
  change (@fmaximum Q _) with (fun x y => if Qltb x y then y else x).
  change (@fminimum Q _) with (fun x y => if Qltb y x then y else x).
  cbv beta.
  split; [|split; [|split; [|split]]].
  - intros x y z. unfold Qltb. intros E1%Z.ltb_ge E2%Z.ltb_ge. apply Z.ltb_ge.
    destruct x as [a b], y as [c e], z as [f g]. simpl in *. nia.
  - intros x y. destruct (Qltb x y); auto.
  - intros x y. destruct (Qltb x y) eqn:E.
    + split; [now apply Hasym | apply Hirr].
    + split; [apply Hirr | exact E].
  - intros x y. destruct (Qltb y x); auto.
  - intros x y. destruct (Qltb y x) eqn:E.
    + split; [now apply Hasym | apply Hirr].
    + split; [apply Hirr | exact E].
Qed.

(** The sample model, which has neither optional epoch, over the sample
    set, whose timestamps run from 58000 to 58020: the epoch goes to
    their midpoint. *)
Lemma center_epochs_midpoint_witness :
  exists (tmin tmax : Q) (m' : TimingModel Q),
    (In tmin (map mjd (table Sample.three_toas))
     /\ Forall (fun x => Spec.fle tmin x) (map mjd (table Sample.three_toas)))
    /\ (In tmax (map mjd (table Sample.three_toas))
        /\ Forall (fun x => Spec.fle x tmax) (map mjd (table Sample.three_toas)))
    /\ center_epochs 1%positive Sample.three_toas {[ 1%positive := Sample.bare_model ]}
       = (<[1%positive := m']> {[ 1%positive := Sample.bare_model ]}, Ok 1%positive)
    /\ PEPOCH m' = Some (fhalf (fadd tmin tmax))
    /\ POSEPOCH m' = None
    /\ DMEPOCH m' = None
    /\ PSR m' = Some "J0000+0000".
Proof.
  apply (center_epochs_midpoint Q_ordered 1%positive Sample.three_toas
           {[ 1%positive := Sample.bare_model ]} Sample.bare_model).
  - reflexivity.
  - eexists. reflexivity.
  - discriminate.
Defined.
